(** * with-robot-4th: the task executor and the action dispatch loop

    A shallow embedding of [src/agent/src/runner/executor.py] (the client
    side [TaskExecutor]) and of the queue, the [/send_action] endpoint and
    the [process_actions] worker of [src/robot/llm_main.py].

    Python values come in two layers.  Wire data (request and response
    bodies, the environment snapshot, queued envelopes) is never mutated by
    the code and is kept as immutable [json] trees.  The task structure a
    caller hands to [execute] is ordinary mutable Python data, so it lives
    in a store of objects addressed by references, and [dict.copy] allocates
    there.  Dynamic typing is kept: every subscript, [in] test, iteration
    and method call returns the Python exception it raises on a value of
    the wrong type. *)

From Stdlib Require Import ZArith String Ascii List Bool Lia.
From Stdlib Require QArith_base.
From stdpp Require Import base list strings sorting pretty.
Import ListNotations.

#[local] Set Warnings "-register-all".

Local Open Scope string_scope.
Local Open Scope list_scope.

(** ** Values *)

(** A decoded JSON document.  A float leaf carries the exact rational value
    of the double; a dict is an association list with distinct keys, in
    insertion order (Python dicts keep it, and [keys()] exposes it). *)
Inductive json : Type :=
| JNull
| JBool (b : bool)
| JInt (n : Z)
| JFloat (q : QArith_base.Q)
| JStr (s : string)
| JList (items : list json)
| JDict (entries : list (string * json)).

(** Run-time values of the caller's data: scalars are immediate, lists and
    dicts are references into the store. *)
Definition loc := nat.

Inductive val : Type :=
| VNone
| VBool (b : bool)
| VInt (n : Z)
| VFloat (q : QArith_base.Q)
| VStr (s : string)
| VRef (l : loc).

Inductive obj : Type :=
| OList (items : list val)
| ODict (entries : list (string * val)).

Abbreviation heap := (list obj).

(** Exceptions, by class.  [KeyError] carries its argument: the missing key
    for a failed subscript, the message for [raise KeyError(error_msg)].
    [SystemError] marks a reference outside the store, which Python cannot
    produce. *)
Inductive exn : Type :=
| KeyError (arg : string)
| ValueError (msg : string)
| TypeError
| AttributeError
| IndexError
| RequestException
| JSONDecodeError
| SystemError.

Inductive result (A : Type) : Type :=
| Ok (a : A)
| Raise (e : exn).
Arguments Ok {A} a.
Arguments Raise {A} e.

(** ** Dictionaries as insertion-ordered association lists *)

Section Dict.
Context {A : Type}.

Fixpoint dict_get (d : list (string * A)) (k : string) : option A :=
  match d with
  | [] => None
  | (k', v) :: d' => if String.eqb k' k then Some v else dict_get d' k
  end.

Definition dict_mem (d : list (string * A)) (k : string) : bool :=
  match dict_get d k with Some _ => true | None => false end.

(** [d[k] = v]: an existing key keeps its place, a new one goes last. *)
Fixpoint dict_set (d : list (string * A)) (k : string) (v : A)
  : list (string * A) :=
  match d with
  | [] => [(k, v)]
  | (k', v') :: d' =>
      if String.eqb k' k then (k', v) :: d' else (k', v') :: dict_set d' k v
  end.

Definition dict_keys (d : list (string * A)) : list string := map fst d.
End Dict.

(** ** Python primitives on the two layers *)

(** [t in s] for two strings. *)
Definition is_substring (t s : string) : bool :=
  match String.index 0 t s with Some _ => true | None => false end.

(** The one-character strings a [str] iterates over. *)
Definition chars (s : string) : list string :=
  map (fun c => String c EmptyString) (list_ascii_of_string s).

(** [xs[i]] for an integer index, negative ones counting from the end. *)
Definition py_index {A} (xs : list A) (i : Z) : result A :=
  let n := Z.of_nat (length xs) in
  let i' := if (i <? 0)%Z then (i + n)%Z else i in
  if (i' <? 0)%Z then Raise IndexError
  else match nth_error xs (Z.to_nat i') with
       | Some x => Ok x
       | None => Raise IndexError
       end.

Definition b2z (b : bool) : Z := if b then 1%Z else 0%Z.

(** [j[k]] for a string key [k]. *)
Definition json_getitem (j : json) (k : string) : result json :=
  match j with
  | JDict d =>
      match dict_get d k with
      | Some v => Ok v
      | None => Raise (KeyError k)
      end
  | _ => Raise TypeError
  end.

(** [j.get(k, default)]; only dicts have the method. *)
Definition json_get (j : json) (k : string) (default : json) : result json :=
  match j with
  | JDict d =>
      Ok (match dict_get d k with Some v => v | None => default end)
  | _ => Raise AttributeError
  end.

Definition json_is_str (k : string) (j : json) : bool :=
  match j with JStr s => String.eqb s k | _ => false end.

(** [k in j] for a string [k]: key test on a dict, element test on a list,
    substring test on a string, [TypeError] on anything else. *)
Definition json_contains_str (k : string) (j : json) : result bool :=
  match j with
  | JDict d => Ok (dict_mem d k)
  | JList xs => Ok (existsb (json_is_str k) xs)
  | JStr s => Ok (is_substring k s)
  | _ => Raise TypeError
  end.

(** [j.keys()]. *)
Definition json_keys (j : json) : result (list string) :=
  match j with
  | JDict d => Ok (dict_keys d)
  | _ => Raise AttributeError
  end.

(** The numeric value of a scalar, if it has one ([bool] is an [int]). *)
Definition val_num (v : val) : option QArith_base.Q :=
  match v with
  | VBool b => Some (QArith_base.inject_Z (b2z b))
  | VInt n => Some (QArith_base.inject_Z n)
  | VFloat q => Some q
  | _ => None
  end.

Definition num_eq (q : QArith_base.Q) (v : val) : bool :=
  match val_num v with
  | Some q' => QArith_base.Qeq_bool q' q
  | None => false
  end.

(** [v == j] between a run-time value and a decoded document: numbers by
    value, strings by content, lists element-wise, dicts key by key. *)
Fixpoint py_eq (h : heap) (v : val) (j : json) {struct j} : bool :=
  match j with
  | JNull => match v with VNone => true | _ => false end
  | JBool b => num_eq (QArith_base.inject_Z (b2z b)) v
  | JInt n => num_eq (QArith_base.inject_Z n) v
  | JFloat q => num_eq q v
  | JStr s => match v with VStr s' => String.eqb s' s | _ => false end
  | JList js =>
      match v with
      | VRef l =>
          match h !! l with
          | Some (OList vs) =>
              (fix all2 (vs : list val) (js : list json) {struct js} : bool :=
                 match vs, js with
                 | [], [] => true
                 | v' :: vs', j' :: js' => py_eq h v' j' && all2 vs' js'
                 | _, _ => false
                 end) vs js
          | _ => false
          end
      | _ => false
      end
  | JDict kjs =>
      match v with
      | VRef l =>
          match h !! l with
          | Some (ODict kvs) =>
              Nat.eqb (length kvs) (length kjs) &&
              (fix each (kjs : list (string * json)) : bool :=
                 match kjs with
                 | [] => true
                 | (k, j') :: kjs' =>
                     match dict_get kvs k with
                     | Some v' => py_eq h v' j'
                     | None => false
                     end && each kjs'
                 end) kjs
          | _ => false
          end
      | _ => false
      end
  end.

(** [v[k]] for a string key [k]. *)
Definition val_getitem (h : heap) (v : val) (k : string) : result val :=
  match v with
  | VRef l =>
      match h !! l with
      | Some (ODict d) =>
          match dict_get d k with
          | Some x => Ok x
          | None => Raise (KeyError k)
          end
      | Some (OList _) => Raise TypeError
      | None => Raise SystemError
      end
  | _ => Raise TypeError
  end.

(** The elements [for x in v] visits: the items of a list, the keys of a
    dict, the characters of a string. *)
Definition val_iter (h : heap) (v : val) : result (list val) :=
  match v with
  | VRef l =>
      match h !! l with
      | Some (OList xs) => Ok xs
      | Some (ODict d) => Ok (map VStr (dict_keys d))
      | None => Raise SystemError
      end
  | VStr s => Ok (map VStr (chars s))
  | _ => Raise TypeError
  end.

(** [v in j]: a dict hashes [v] first (lists and dicts are unhashable) and
    has string keys only; a list compares element by element; a string
    accepts only a string on the left. *)
Definition val_in (h : heap) (v : val) (j : json) : result bool :=
  match j with
  | JDict d =>
      match v with
      | VStr s => Ok (dict_mem d s)
      | VRef _ => Raise TypeError
      | _ => Ok false
      end
  | JList js => Ok (existsb (py_eq h v) js)
  | JStr s =>
      match v with
      | VStr t => Ok (is_substring t s)
      | _ => Raise TypeError
      end
  | _ => Raise TypeError
  end.

(** ** Failing computations, with and without state *)

Definition rbind {A B} (r : result A) (k : A -> result B) : result B :=
  match r with
  | Ok a => k a
  | Raise e => Raise e
  end.

Notation "'let?' x ':=' r 'in' k" := (rbind r (fun x => k))
  (at level 10, x name, r at level 100, k at level 200).

(** What goes over the wire, and what comes back.  [Replied None] is a
    response whose body is not JSON; [Unreachable] makes [requests] raise. *)
Inductive request : Type :=
| GET (url : string)
| POST (url : string) (body : json).

Inductive reply : Type :=
| Replied (body : option json)
| Unreachable.

(** The client's world: the store of Python objects and the requests issued
    so far, oldest first. *)
Record world : Type := World { store : heap; sent : list request }.

Definition M (A : Type) : Type := world -> result A * world.

Definition ret {A} (a : A) : M A := fun w => (Ok a, w).

Definition raise {A} (e : exn) : M A := fun w => (Raise e, w).

Definition bind {A B} (m : M A) (k : A -> M B) : M B :=
  fun w =>
    match m w with
    | (Ok a, w') => k a w'
    | (Raise e, w') => (Raise e, w')
    end.

Definition lift {A} (r : result A) : M A := fun w => (r, w).

(** A read of the store. *)
Definition reading {A} (f : heap -> result A) : M A :=
  fun w => (f (store w), w).

Notation "'let*' x ':=' m 'in' k" := (bind m (fun x => k))
  (at level 10, x name, m at level 100, k at level 200).

(** [v.copy()]: a shallow copy at a fresh reference.  Scalars and strings
    have no such method. *)
Definition py_copy (v : val) : M val :=
  fun w =>
    match v with
    | VRef l =>
        match store w !! l with
        | Some o =>
            (Ok (VRef (length (store w))),
             World (store w ++ [o]) (sent w))
        | None => (Raise SystemError, w)
        end
    | _ => (Raise AttributeError, w)
    end.

(** [v[k] = x] for a string key: only a dict takes it. *)
Definition py_setitem (v : val) (k : string) (x : val) : M unit :=
  fun w =>
    match v with
    | VRef l =>
        match store w !! l with
        | Some (ODict d) =>
            (Ok tt, World (<[l := ODict (dict_set d k x)]> (store w)) (sent w))
        | Some (OList _) => (Raise TypeError, w)
        | None => (Raise SystemError, w)
        end
    | _ => (Raise TypeError, w)
    end.

(** [response.json()]. *)
Definition response_json (body : option json) : result json :=
  match body with
  | Some j => Ok j
  | None => Raise JSONDecodeError
  end.

Definition nl : string := String (ascii_of_nat 10) EmptyString.

(** ** [TaskExecutor] *)

Module TaskExecutor.
Section WithEnvironment.

(** The Python runtime's string formatting inside f-strings, of a decoded
    document ([{pos}], [{available_objects}]) and of a run-time value
    ([{target_name}], [{task['skill']}]). *)
Variable fmt : json -> string.
Variable str_of : heap -> val -> string.

(** The peer at the other end of [requests]: its answer to a request,
    given the requests that came before. *)
Variable server : list request -> request -> reply.

Record t : Type := Make { object_map : json; url : string }.

Definition requests_call (rq : request) : M (option json) :=
  fun w =>
    let w' := World (store w) (sent w ++ [rq]) in
    match server (sent w) rq with
    | Replied body => (Ok body, w')
    | Unreachable => (Raise RequestException, w')
    end.

Definition __init__ (url : string) : M t :=
  let* response := requests_call (GET (url ++ "/env")) in
  let* body := lift (response_json response) in
  let* object_map := lift (json_get body "objects" (JList [])) in
  ret (Make object_map url).

Fixpoint _make_task_sequence_loop (h : heap) (task_outputs : list val)
    (task_sequence : list val) : result (list val) :=
  match task_outputs with
  | [] => Ok task_sequence
  | task_output :: rest =>
      let? subgoal := val_getitem h task_output "subgoal" in
      let? tasks := val_getitem h task_output "tasks" in
      let? items := val_iter h tasks in
      _make_task_sequence_loop h rest (task_sequence ++ items)
  end.

(** Neither loop writes to the list it walks ([task_sequence] is a new
    list), so each walks the elements present at loop entry. *)
Definition _make_task_sequence (h : heap) (task_outputs : val)
  : result (list val) :=
  let? groups := val_iter h task_outputs in
  _make_task_sequence_loop h groups [].

(** The envelope every skill posts. *)
Definition run_code (code : string) : json :=
  JDict [("action",
          JDict [("type", JStr "run_code");
                 ("payload", JDict [("code", JStr code)])])].

Definition go_to_code (pos : json) : string :=
  nl ++ "path = plan_mobile_path(" ++ fmt pos ++ ")" ++ nl ++
  "result = follow_mobile_path(path)" ++ nl.

Definition pick_code (pos : json) : string :=
  nl ++ "result = pick_object(" ++ fmt pos ++ ", 0.1, 0.2)" ++ nl.

Definition place_code (pos : json) : string :=
  nl ++ "result = place_object(" ++ fmt pos ++ ", 0.1, 0.2)" ++ nl.

(** The shared body of the three skill methods: read [pos], build the
    payload, post it, read [result] from the answer (and print it). *)
Definition post_skill (code : json -> string) (self : t) (target : json)
  : M unit :=
  let* pos := lift (json_getitem target "pos") in
  let payload := run_code (code pos) in
  let* response := requests_call (POST (url self ++ "/send_action") payload) in
  let* body := lift (response_json response) in
  let* objects := lift (json_getitem body "result") in
  ret tt.

Definition _go_to_object := post_skill go_to_code.
Definition _pick_object := post_skill pick_code.
Definition _place_object := post_skill place_code.

(** [self.object_map[target_name]]. *)
Definition json_index (h : heap) (j : json) (v : val) : result json :=
  match j with
  | JDict d =>
      match v with
      | VStr s =>
          match dict_get d s with
          | Some x => Ok x
          | None => Raise (KeyError s)
          end
      | VRef _ => Raise TypeError
      | _ => Raise (KeyError (str_of h v))
      end
  | JList xs =>
      match v with
      | VInt i => py_index xs i
      | VBool b => py_index xs (b2z b)
      | _ => Raise TypeError
      end
  | JStr s =>
      match v with
      | VInt i => let? c := py_index (chars s) i in Ok (JStr c)
      | VBool b => let? c := py_index (chars s) (b2z b) in Ok (JStr c)
      | _ => Raise TypeError
      end
  | _ => Raise TypeError
  end.

Definition val_is_str (v : val) (s : string) : bool :=
  match v with VStr s' => String.eqb s' s | _ => false end.

Definition error_msg (h : heap) (target_name : val)
    (available_objects : list string) : string :=
  "Object '" ++ str_of h target_name ++ "' not found. Available objects: "
  ++ fmt (JList (map JStr available_objects)).

Definition unknown_skill (h : heap) (skill : val) : string :=
  "Unknown skill: " ++ str_of h skill.

(** One turn of the [for task in task_sequence] loop of [execute]; the
    value is [task_result].  [task["skill"]] is read once: nothing
    writes to [task] between the comparisons. *)
Definition execute_task (self : t) (task : val) : M val :=
  let* target_name := reading (fun h => val_getitem h task "target") in
  let* found := reading (fun h => val_in h target_name (object_map self)) in
  if negb found then
    let* available_objects := lift (json_keys (object_map self)) in
    let* msg := reading (fun h => Ok (error_msg h target_name available_objects)) in
    raise (KeyError msg)
  else
    let* target :=
      reading (fun h => json_index h (object_map self) target_name) in
    let* skill := reading (fun h => val_getitem h task "skill") in
    let* _ :=
      if val_is_str skill "GoToObject" then _go_to_object self target
      else if val_is_str skill "PickObject" then _pick_object self target
      else if val_is_str skill "PlaceObject" then _place_object self target
      else
        let* msg := reading (fun h => Ok (unknown_skill h skill)) in
        raise (ValueError msg) in
    let* task_result := py_copy task in
    let* _ := py_setitem task_result "result" (VStr "Ok") in
    ret task_result.

Fixpoint execute_loop (self : t) (task_sequence : list val)
    (results : list val) : M (list val) :=
  match task_sequence with
  | [] => ret results
  | task :: rest =>
      let* task_result := execute_task self task in
      execute_loop self rest (results ++ [task_result])
  end.

Definition execute (self : t) (task_outputs : val) : M (list val) :=
  let* task_sequence :=
    reading (fun h => _make_task_sequence h task_outputs) in
  execute_loop self task_sequence [].

End WithEnvironment.
End TaskExecutor.

(** ** The server: action queue, [/send_action], and the dispatch worker *)

Module Server.

(** [queue.Queue()]: the waiting envelopes, oldest first, and the count of
    unfinished tasks that [put] raises and [task_done] lowers.  Each
    envelope is stamped on [put] with its arrival number; the stamp is
    the model's name for the envelope and the code never reads it. *)
Record queue : Type :=
  Queue { items : list (nat * json); unfinished : nat; arrivals : nat }.

Definition put (q : queue) (item : json) : queue :=
  Queue (items q ++ [(arrivals q, item)]) (S (unfinished q))
        (S (arrivals q)).

Definition task_done (q : queue) : result queue :=
  match unfinished q with
  | O => Raise (ValueError "task_done() called too many times")
  | S n => Ok (Queue (items q) n (arrivals q))
  end.

Record response : Type := JSONResponse { status_code : nat; content : json }.

Definition HTTP_200_OK : nat := 200.
Definition HTTP_400_BAD_REQUEST : nat := 400.

Definition accepted : response :=
  JSONResponse HTTP_200_OK
    (JDict [("status", JStr "success"); ("action_feedback", JStr "good")]).

Definition rejected : response :=
  JSONResponse HTTP_400_BAD_REQUEST
    (JDict [("status", JStr "error");
            ("message", JStr "Invalid action format")]).

(** [POST /send_action].  The three tests are joined by [and], so a test
    is made only when the ones before it held; an exception leaves the
    handler (and the queue is as it was). *)
Definition receive_action (action : json) (q : queue)
  : result (response * queue) :=
  let? has_action := json_contains_str "action" action in
  if negb has_action then Ok (rejected, q) else
  let? inner := json_getitem action "action" in
  let? has_type := json_contains_str "type" inner in
  if negb has_type then Ok (rejected, q) else
  let? has_payload := json_contains_str "payload" inner in
  if negb has_payload then Ok (rejected, q) else
  Ok (accepted, put q action).

(** The only write [llm_command] makes to the queue, when [execute] is
    set: a [run_code] envelope around the generated code. *)
Definition llm_envelope (generated_code : string) : json :=
  JDict [("action",
          JDict [("type", JStr "run_code");
                 ("payload", JDict [("code", JStr generated_code)])])].

(** What the worker makes of an envelope before it touches the simulator
    (lines 57-63): the code to run, or nothing for a type other than
    [run_code]. *)
Inductive plan : Type :=
| Run (code_str : json)
| Ignore.

Definition decode (item : json) : result (json * plan) :=
  let? action := json_getitem item "action" in
  let? type := json_getitem action "type" in
  if json_is_str "run_code" type then
    let? payload := json_getitem action "payload" in
    let? code_str := json_get payload "code" JNull in
    Ok (action, Run code_str)
  else Ok (action, Ignore).

(** How a call of [code_repository.exec_code] ends: it returns, it raises
    an [Exception] (class name and message), or it raises something that
    is not an [Exception] ([SystemExit], [KeyboardInterrupt]), which no
    handler of [process_actions] catches. *)
Inductive outcome : Type :=
| Returned
| Raised (type_name message : string)
| Aborted.

(** The worker thread is between envelopes, inside [exec_code] for the
    envelope with the given arrival number, or gone. *)
Inductive worker_state : Type :=
| Polling
| Executing (id : nat) (code_str : json)
| Stopped.

(** The lines the worker prints inside its loop. *)
Inductive line : Type :=
| ReceivedAction (action : json)
| CompletedSuccessfully
| ExecutionError (type_name message : string)
| Separator
| ErrorProcessingAction (e : exn).

(** What happens at the queue's exit and at the simulator. *)
Inductive event : Type :=
| Got (id : nat)
| Begin (id : nat) (code_str : json)
| End (id : nat) (o : outcome).

Record state : Type :=
  State { waiting : queue;
          worker : worker_state;
          printed : list line;
          trace : list event }.

(** [main] starts one [process_actions] thread over an empty queue. *)
Definition main : state := State (Queue [] 0 0) Polling [] [].

(** The tail of an iteration once the simulator call is over: the closing
    separator and [task_done()], whose exception the outer handler
    prints. *)
Definition finish_iteration (q : queue) (out : list line)
  : queue * list line :=
  match task_done q with
  | Ok q' => (q', out ++ [Separator])
  | Raise e => (q, out ++ [Separator; ErrorProcessingAction e])
  end.

(** [process_actions], one turn of [while True] up to the call of
    [exec_code]: an empty queue times out and the loop goes round.  An
    exception raised before [exec_code] is printed by the outer handler,
    and [task_done()] is not reached. *)
Definition poll (s : state) : state :=
  match items (waiting s) with
  | [] => s
  | (id, item) :: rest =>
      let q := Queue rest (unfinished (waiting s)) (arrivals (waiting s)) in
      let tr := trace s ++ [Got id] in
      match decode item with
      | Raise e =>
          State q Polling
                (printed s ++
                   match json_getitem item "action" with
                   | Ok action => [Separator; ReceivedAction action]
                   | Raise _ => []
                   end ++ [ErrorProcessingAction e])
                tr
      | Ok (action, Ignore) =>
          let (q', out) :=
            finish_iteration q
              (printed s ++ [Separator; ReceivedAction action]) in
          State q' Polling out tr
      | Ok (action, Run code_str) =>
          State q (Executing id code_str)
                (printed s ++ [Separator; ReceivedAction action])
                (tr ++ [Begin id code_str])
      end
  end.

(** The rest of the turn, from the return of [exec_code]. *)
Definition finish (id : nat) (o : outcome) (s : state) : state :=
  let tr := trace s ++ [End id o] in
  match o with
  | Returned =>
      let (q', out) :=
        finish_iteration (waiting s) (printed s ++ [CompletedSuccessfully]) in
      State q' Polling out tr
  | Raised type_name message =>
      let (q', out) :=
        finish_iteration (waiting s)
                         (printed s ++ [ExecutionError type_name message]) in
      State q' Polling out tr
  | Aborted => State (waiting s) Stopped (printed s) tr
  end.

(** The moves of the whole process: a request handled by an endpoint, or
    a move of the worker thread.  Requests interleave freely with the
    worker; the queue's own lock makes [put] and [get] atomic. *)
Inductive label : Type :=
| SendAction (body : json)
| LlmCommand (generated_code : string)
| Poll
| Finish (o : outcome).

Definition step (l : label) (s : state) : option state :=
  match l with
  | SendAction body =>
      match receive_action body (waiting s) with
      | Ok (_, q) => Some (State q (worker s) (printed s) (trace s))
      | Raise _ => Some s
      end
  | LlmCommand generated_code =>
      Some (State (put (waiting s) (llm_envelope generated_code))
                  (worker s) (printed s) (trace s))
  | Poll =>
      match worker s with
      | Polling => Some (poll s)
      | _ => None
      end
  | Finish o =>
      match worker s with
      | Executing id _ => Some (finish id o s)
      | _ => None
      end
  end.

Fixpoint run (ls : list label) (s : state) : option state :=
  match ls with
  | [] => Some s
  | l :: ls' =>
      match step l s with
      | Some s' => run ls' s'
      | None => None
      end
  end.

(** Readings of the trace. *)
Definition begun (tr : list event) : list nat :=
  omap (fun ev => match ev with Begin id _ => Some id | _ => None end) tr.

Definition taken (tr : list event) : list nat :=
  omap (fun ev => match ev with Got id => Some id | _ => None end) tr.

(** Calls of [exec_code] that have begun and not ended, scanning the
    trace from its oldest event. *)
Definition in_flight_step (open : list nat) (ev : event) : list nat :=
  match ev with
  | Got _ => open
  | Begin id _ => open ++ [id]
  | End id _ => filter (fun x => negb (Nat.eqb x id)) open
  end.

Definition in_flight (tr : list event) : list nat :=
  fold_left in_flight_step tr [].

End Server.


(** ** Vocabulary of the statements *)

(** A request that submits a [run_code] envelope to [/send_action]. *)
Definition submission (self : TaskExecutor.t) (rq : request) : Prop :=
  exists code,
    rq = POST (TaskExecutor.url self ++ "/send_action")
              (TaskExecutor.run_code code).

(** The errors a skill method can raise once its request has left. *)
Definition after_post (e : exn) : Prop :=
  e = RequestException \/ e = JSONDecodeError \/ e = KeyError "result" \/
  e = TypeError.

(** The two errors [execute] raises itself. *)
Definition unknown_object_error (fmt : json -> string)
    (str_of : heap -> val -> string) (e : exn) : Prop :=
  exists h name names,
    e = KeyError (TaskExecutor.error_msg fmt str_of h name names).

Definition unsupported_skill_error (str_of : heap -> val -> string)
    (e : exn) : Prop :=
  exists h skill, e = ValueError (TaskExecutor.unknown_skill str_of h skill).

Definition validation_error (fmt : json -> string)
    (str_of : heap -> val -> string) (e : exn) : Prop :=
  unknown_object_error fmt str_of e \/ unsupported_skill_error str_of e.

(** [group] is a dict with a [subgoal] and with [tasks] that iterate as
    [ts]. *)
Definition group_tasks (h : heap) (group : val) (ts : list val) : Prop :=
  (exists subgoal, val_getitem h group "subgoal" = Ok subgoal) /\
  exists tasks, val_getitem h group "tasks" = Ok tasks /\
                val_iter h tasks = Ok ts.

(** [o] is the dict of [task] with [result] set to ["Ok"]. *)
Definition marked_copy (h : heap) (task : val) (o : obj) : Prop :=
  exists lt d, task = VRef lt /\ h !! lt = Some (ODict d) /\
               o = ODict (dict_set d "result" (VStr "Ok")).

(** [res] refers to an object that did not exist in [h] and that is, in
    [h'], the marked copy of [task]. *)
Definition fresh_copy (h h' : heap) (task res : val) : Prop :=
  exists l o, res = VRef l /\ length h <= l /\ h' !! l = Some o /\
              marked_copy h' task o.

(** The test [receive_action] makes, on a submission whose [action] member
    is an object. *)
Definition has_envelope_keys (action : json) : bool :=
  match json_getitem action "action" with
  | Ok (JDict inner) => dict_mem inner "type" && dict_mem inner "payload"
  | _ => false
  end.

(** The invariant of the server: arrival numbers [0 .. lo-1] have left the
    queue, [lo ..] wait in order, the calls begun are increasing and below
    [lo], and the open call is the worker's. *)
Definition inv (s : Server.state) : Prop :=
  exists lo : nat,
    Server.taken (Server.trace s) = seq 0 lo /\
    map fst (Server.items (Server.waiting s))
      = seq lo (Server.arrivals (Server.waiting s) - lo) /\
    lo <= Server.arrivals (Server.waiting s) /\
    StronglySorted lt (Server.begun (Server.trace s)) /\
    Forall (fun x => x < lo) (Server.begun (Server.trace s)) /\
    Server.in_flight (Server.trace s) =
      match Server.worker s with
      | Server.Executing id _ => [id]
      | _ => []
      end /\
    (forall id c, Server.worker s = Server.Executing id c ->
                  id ∈ Server.begun (Server.trace s)).

(** ** A concrete environment for the examples *)

Module Demo.

(** A formatter in the manner of Python's, exact on [None], booleans,
    integers, strings without quotes or escapes, and lists and dicts of
    those. *)
Fixpoint repr (j : json) : string :=
  match j with
  | JNull => "None"
  | JBool b => if b then "True" else "False"
  | JInt n => pretty n
  | JFloat q => pretty (QArith_base.Qnum q) +:+ "/" +:+
                pretty (Zpos (QArith_base.Qden q))
  | JStr s => "'" +:+ s +:+ "'"
  | JList js =>
      "[" +:+ (fix items (js : list json) : string :=
                match js with
                | [] => ""
                | [j'] => repr j'
                | j' :: js' => repr j' +:+ ", " +:+ items js'
                end) js +:+ "]"
  | JDict kjs =>
      "{" +:+ (fix entries (kjs : list (string * json)) : string :=
                match kjs with
                | [] => ""
                | [(k, j')] => "'" +:+ k +:+ "': " +:+ repr j'
                | (k, j') :: kjs' =>
                    "'" +:+ k +:+ "': " +:+ repr j' +:+ ", " +:+ entries kjs'
                end) kjs +:+ "}"
  end.

Definition fmt (j : json) : string :=
  match j with JStr s => s | _ => repr j end.

Definition str_of (h : heap) (v : val) : string :=
  match v with
  | VNone => "None"
  | VBool b => if b then "True" else "False"
  | VInt n => pretty n
  | VStr s => s
  | _ => "..."
  end.

(** A simulator that answers [GET /env] with one table and every command
    with a result. *)
Definition table : json :=
  JDict [("pos", JList [JInt 1; JInt 2; JInt 0])].

Definition server (_ : list request) (rq : request) : reply :=
  match rq with
  | GET _ => Replied (Some (JDict [("objects", JDict [("table", table)])]))
  | POST _ _ => Replied (Some (JDict [("result", JNull)]))
  end.

(** One whose [/env] answer has no [objects] member. *)
Definition bare_server (_ : list request) (rq : request) : reply :=
  match rq with
  | GET _ => Replied (Some (JDict [("status", JStr "ok")]))
  | POST _ _ => Replied (Some (JDict [("result", JNull)]))
  end.

Definition url : string := "http://127.0.0.1:8800".

Definition self : TaskExecutor.t :=
  TaskExecutor.Make (JDict [("table", table)]) url.

Definition task (skill target : string) : obj :=
  ODict [("skill", VStr skill); ("target", VStr target)].

(** [[{subgoal: "fetch", tasks: [first, second]}]] at reference 4. *)
Definition plan (first second : obj) : heap :=
  [first; second; OList [VRef 0; VRef 1];
   ODict [("subgoal", VStr "fetch"); ("tasks", VRef 2)];
   OList [VRef 3]].

(** [[{tasks: [A, B]}, {tasks: [C]}]] at reference 4, with and without the
    [subgoal] members. *)
Definition groups (labelled : bool) : heap :=
  let label (s : string) (d : list (string * val)) :=
    if labelled then ("subgoal", VStr s) :: d else d in
  [OList [VStr "A"; VStr "B"]; OList [VStr "C"];
   ODict (label "one" [("tasks", VRef 0)]);
   ODict (label "two" [("tasks", VRef 1)]);
   OList [VRef 2; VRef 3]].

Definition envelope (type : string) (code : string) : json :=
  JDict [("action",
          JDict [("type", JStr type);
                 ("payload", JDict [("code", JStr code)])])].

(** Three one-group plans on an empty wire. *)
Definition go_then_pick : world :=
  World (plan (task "GoToObject" "table") (task "PickObject" "blue_mug")) [].

Definition fly_then_pick : world :=
  World (plan (task "Fly" "table") (task "PickObject" "blue_mug")) [].

Definition go_then_place : world :=
  World (plan (task "GoToObject" "table") (task "PlaceObject" "table")) [].

(** The world once the first task of [go_then_pick] is done, and once both
    tasks of [go_then_place] are. *)
Definition after_go : world :=
  Eval vm_compute in
    snd (TaskExecutor.execute_loop fmt str_of server self [VRef 0] []
           go_then_pick).

Definition after_place : world :=
  Eval vm_compute in
    snd (TaskExecutor.execute fmt str_of server self (VRef 4) go_then_place).

(** Server traffic: three envelopes arrive, the second of an unknown type;
    the worker takes the first, whose code raises, and goes on. *)
Definition traffic : list Server.label :=
  [Server.SendAction (envelope "run_code" "a");
   Server.SendAction (envelope "fly" "b");
   Server.LlmCommand "c";
   Server.Poll;
   Server.Finish (Server.Raised "NameError" "name 'a' is not defined");
   Server.Poll;
   Server.Poll].

Definition served : Server.state :=
  Eval vm_compute in
    match Server.run traffic Server.main with
    | Some s => s
    | None => Server.main
    end.

(** The worker inside the first envelope, a second one waiting. *)
Definition busy : Server.state :=
  Eval vm_compute in
    match Server.run [Server.SendAction (envelope "run_code" "a");
                      Server.LlmCommand "c"; Server.Poll] Server.main with
    | Some s => s
    | None => Server.main
    end.

End Demo.

(** ** The [/llm_command] endpoint *)

Module LlmEndpoint.

Definition HTTP_500_INTERNAL_SERVER_ERROR : nat := 500.

(** Python's truth value of a decoded document: [None], [False], zero, and
    the empty string, list and dict are false. *)
Definition truthy (j : json) : bool :=
  match j with
  | JNull => false
  | JBool b => b
  | JInt n => negb (n =? 0)%Z
  | JFloat q => negb (QArith_base.Qeq_bool q (QArith_base.inject_Z 0))
  | JStr s => negb (String.eqb s "")
  | JList js => match js with [] => false | _ => true end
  | JDict d => match d with [] => false | _ => true end
  end.

(** [j.startswith(p)]; only a string has the method. *)
Definition startswith (j : json) (p : string) : result bool :=
  match j with
  | JStr s => Ok (String.prefix p s)
  | _ => Raise AttributeError
  end.

(** How a call of [llm_agent.generate_code] ends: with a value, or with an
    [Exception], of which the handler uses [str(e)] and the traceback. *)
Inductive generation : Type :=
| Generated (generated_code : json)
| GenerationRaised (message traceback : string).

Section WithAgent.

Variable generate_code : json -> generation.

(** [str(e)] and [traceback.format_exc()] for an exception the handler's own
    statements raise. *)
Variable str_exn : exn -> string.
Variable format_exc : exn -> string.

Definition no_command : Server.response :=
  Server.JSONResponse Server.HTTP_400_BAD_REQUEST
    (JDict [("status", JStr "error");
            ("message", JStr "No command provided")]).

Definition generation_error (user_command generated_code : json)
  : Server.response :=
  Server.JSONResponse HTTP_500_INTERNAL_SERVER_ERROR
    (JDict [("status", JStr "error");
            ("user_command", user_command);
            ("error", generated_code)]).

Definition success (user_command generated_code : json) (executed : bool)
  : Server.response :=
  Server.JSONResponse Server.HTTP_200_OK
    (JDict [("status", JStr "success");
            ("user_command", user_command);
            ("generated_code", generated_code);
            ("executed", JBool executed)]).

(** The answer of the [except Exception] clause. *)
Definition failure (message traceback : string) : Server.response :=
  Server.JSONResponse HTTP_500_INTERNAL_SERVER_ERROR
    (JDict [("status", JStr "error");
            ("message", JStr message);
            ("traceback", JStr traceback)]).

Definition caught (e : exn) : Server.response :=
  failure (str_exn e) (format_exc e).

(** The envelope the handler puts on the queue. *)
Definition envelope (generated_code : json) : json :=
  JDict [("action",
          JDict [("type", JStr "run_code");
                 ("payload", JDict [("code", generated_code)])])].

(** [POST /llm_command]: the response, and the queue after it.  Every
    statement sits inside [try]; the queue is written in one place. *)
Definition llm_command (request : json) (q : Server.queue)
  : Server.response * Server.queue :=
  match json_get request "command" (JStr "") with
  | Raise e => (caught e, q)
  | Ok user_command =>
      match json_get request "execute" (JBool true) with
      | Raise e => (caught e, q)
      | Ok auto_execute =>
          if negb (truthy user_command) then (no_command, q) else
          match generate_code user_command with
          | GenerationRaised message traceback =>
              (failure message traceback, q)
          | Generated generated_code =>
              match startswith generated_code "# ERROR" with
              | Raise e => (caught e, q)
              | Ok true => (generation_error user_command generated_code, q)
              | Ok false =>
                  if truthy auto_execute
                  then (success user_command generated_code true,
                        Server.put q (envelope generated_code))
                  else (success user_command generated_code false, q)
              end
          end
      end
  end.

End WithAgent.
End LlmEndpoint.

(** ** Vocabulary of the further facts *)

(** The command a skill name stands for, if it is one of the three. *)
Definition skill_code (fmt : json -> string) (skill : string)
  : option (json -> string) :=
  if String.eqb skill "GoToObject" then Some (TaskExecutor.go_to_code fmt)
  else if String.eqb skill "PickObject" then Some (TaskExecutor.pick_code fmt)
  else if String.eqb skill "PlaceObject"
       then Some (TaskExecutor.place_code fmt)
  else None.

(** [task] is a dict whose [target] names an entry of the snapshot [m] that
    has a [pos], and whose [skill] is one of the three; [rq] is the request
    that submits the command for that skill and position. *)
Definition task_request (fmt : json -> string) (self : TaskExecutor.t)
    (m : list (string * json)) (h : heap) (task : val) (rq : request)
  : Prop :=
  exists name target pos skill code,
    val_getitem h task "target" = Ok (VStr name) /\
    dict_get m name = Some target /\
    json_getitem target "pos" = Ok pos /\
    val_getitem h task "skill" = Ok (VStr skill) /\
    skill_code fmt skill = Some code /\
    rq = POST (TaskExecutor.url self ++ "/send_action")
              (TaskExecutor.run_code (code pos)).

(** A peer that answers every [POST] with a JSON object that has a
    [result] member. *)
Definition answers_result (server : list request -> request -> reply)
  : Prop :=
  forall hist url body,
    exists b r, server hist (POST url body) = Replied (Some b) /\
                json_getitem b "result" = Ok r.

(** A peer that answers a [POST] with the content of the response
    [receive_action] returns for its body. *)
Definition answers_as_send_action
    (server : list request -> request -> reply) : Prop :=
  forall hist url body resp q q',
    Server.receive_action body q = Ok (resp, q') ->
    server hist (POST url body) = Replied (Some (Server.content resp)).

(** The first way in which [group] fails to be a task group. *)
Definition group_error (h : heap) (group : val) (e : exn) : Prop :=
  val_getitem h group "subgoal" = Raise e \/
  (exists subgoal, val_getitem h group "subgoal" = Ok subgoal) /\
  (val_getitem h group "tasks" = Raise e \/
   exists tasks, val_getitem h group "tasks" = Ok tasks /\
                 val_iter h tasks = Raise e).

(** The number of envelopes whose turn ended in the outer handler. *)
Definition processing_errors (out : list Server.line) : nat :=
  length (List.filter (fun l => match l with
                                | Server.ErrorProcessingAction _ => true
                                | _ => false
                                end) out).

(** Envelopes the worker holds without having called [task_done()]. *)
Definition held (w : Server.worker_state) : nat :=
  match w with
  | Server.Polling => 0
  | Server.Executing _ _ => 1
  | Server.Stopped => 1
  end.

(** Where the queue's count of unfinished tasks stands. *)
Definition unfinished_accounted (s : Server.state) : Prop :=
  Server.unfinished (Server.waiting s) =
    length (Server.items (Server.waiting s)) + held (Server.worker s)
    + processing_errors (Server.printed s) /\
  forall e, Server.ErrorProcessingAction e ∈ Server.printed s ->
            e = TypeError \/ e = AttributeError \/ exists k, e = KeyError k.

(** ** Inputs for the further examples *)

Module Sample.

(** An agent that writes one line of code, one that flags an error, and a
    way of printing exceptions. *)
Definition agent (command : json) : LlmEndpoint.generation :=
  LlmEndpoint.Generated (JStr "result = move_forward(1.0)").

Definition failing_agent (command : json) : LlmEndpoint.generation :=
  LlmEndpoint.Generated (JStr "# ERROR: no API key").

Definition str_exn (e : exn) : string :=
  match e with
  | KeyError arg => "'" +:+ arg +:+ "'"
  | ValueError msg => msg
  | _ => "error"
  end.

Definition format_exc (e : exn) : string :=
  "Traceback (most recent call last): " +:+ str_exn e.

Definition ask (command : string) : json :=
  JDict [("command", JStr command)].

(** A peer that answers as this repository's [/send_action] does. *)
Definition send_action_server (_ : list request) (rq : request) : reply :=
  match rq with
  | GET _ => Replied (Some (JDict [("objects", JDict [("table", Demo.table)])]))
  | POST _ body =>
      match Server.receive_action body (Server.Queue [] 0 0) with
      | Ok (resp, _) => Replied (Some (Server.content resp))
      | Raise _ => Replied None
      end
  end.

(** [[{subgoal: "one", tasks: [A]}, {tasks: [B]}]] at reference 4: the
    second group has no [subgoal]. *)
Definition half_labelled : heap :=
  [OList [VRef 5]; OList [VRef 6];
   ODict [("subgoal", VStr "one"); ("tasks", VRef 0)];
   ODict [("tasks", VRef 1)];
   OList [VRef 2; VRef 3];
   Demo.task "GoToObject" "table"; Demo.task "PickObject" "table"].

(** An envelope with the three keys whose payload is not an object. *)
Definition flat_payload : json :=
  JDict [("action",
          JDict [("type", JStr "run_code"); ("payload", JStr "go()")])].

(** [Demo.busy] once its call of [exec_code] has let [SystemExit] out. *)
Definition stopped_busy : Server.state :=
  Eval vm_compute in
    match Server.step (Server.Finish Server.Aborted) Demo.busy with
    | Some s => s
    | None => Server.main
    end.

(** A snapshot that is a list of names, not a mapping. *)
Definition listing : TaskExecutor.t :=
  TaskExecutor.Make (JList [JStr "table"; JStr "red_cup"]) Demo.url.

(** Traffic in which one envelope cannot be decoded. *)
Definition rough_traffic : list Server.label :=
  [Server.SendAction flat_payload;
   Server.SendAction (Demo.envelope "run_code" "a");
   Server.Poll; Server.Poll; Server.Finish Server.Returned].

Definition roughly_served : Server.state :=
  Eval vm_compute in
    match Server.run rough_traffic Server.main with
    | Some s => s
    | None => Server.main
    end.

End Sample.

(** * Facts about [TaskExecutor] *)

Import TaskExecutor.

Section ExecutorFacts.
Variable fmt : json -> string.
Variable str_of : heap -> val -> string.
Variable server : list request -> request -> reply.

#[local] Abbreviation post_skill := (post_skill server).
#[local] Abbreviation execute_task := (execute_task fmt str_of server).
#[local] Abbreviation execute_loop := (execute_loop fmt str_of server).
#[local] Abbreviation execute := (execute fmt str_of server).

(** A skill method never touches the store; it raises before its request
    only when [target] has no [pos]. *)
Lemma post_skill_cases code self target w r w' :
  TaskExecutor.post_skill server code self target w = (r, w') ->
  store w' = store w /\
  match r with
  | Ok _ =>
      exists pos, json_getitem target "pos" = Ok pos /\
        sent w' = sent w ++
          [POST (url self ++ "/send_action") (run_code (code pos))]
  | Raise e =>
      (sent w' = sent w /\ json_getitem target "pos" = Raise e) \/
      (exists pos, json_getitem target "pos" = Ok pos /\
         sent w' = sent w ++
           [POST (url self ++ "/send_action") (run_code (code pos))] /\
         after_post e)
  end.
Proof.
  unfold TaskExecutor.post_skill, bind, lift, ret, requests_call, after_post.
  destruct (json_getitem target "pos") as [pos|e0]; [|intros [= <- <-]; auto].
  destruct (server _ _) as [body|]; cbn [store sent].
  - destruct body as [body|]; cbn [response_json].
    + destruct (json_getitem body "result") as [x|e1] eqn:E;
        intros [= <- <-]; cbn.
      * eauto.
      * split; [done|]. right. exists pos. repeat split; auto.
        unfold json_getitem in E. destruct body; try (inversion E; auto; fail).
        destruct (dict_get entries "result"); inversion E; auto.
    + intros [= <- <-]; cbn. split; [done|]. right. eauto 10.
  - intros [= <- <-]; cbn. split; [done|]. right. eauto 10.
Qed.

Lemma insert_fresh {A} (h : list A) (o o' : A) :
  <[length h := o']> (h ++ [o]) = h ++ [o'].
Proof.
  rewrite insert_app_r_alt by lia. by rewrite Nat.sub_diag.
Qed.

Lemma val_getitem_dict h task k x :
  val_getitem h task k = Ok x ->
  exists lt d, task = VRef lt /\ h !! lt = Some (ODict d).
Proof.
  unfold val_getitem. destruct task; try discriminate.
  destruct (h !! l) as [[|d]|] eqn:E; try discriminate. eauto.
Qed.

Lemma copy_and_mark lt d w :
  store w !! lt = Some (ODict d) ->
  (let* task_result := py_copy (VRef lt) in
   let* _ := py_setitem task_result "result" (VStr "Ok") in
   ret task_result) w =
  (Ok (VRef (length (store w))),
   World (store w ++ [ODict (dict_set d "result" (VStr "Ok"))]) (sent w)).
Proof.
  intros H. unfold bind, py_copy, py_setitem, ret. rewrite H. cbn [store sent].
  rewrite lookup_app_r, Nat.sub_diag by lia. cbn.
  by rewrite insert_fresh.
Qed.

(** One turn of the loop: a turn that completes has posted once and stored
    one marked copy; a turn that raises has stored nothing and has posted
    at most once. *)
Lemma execute_task_cases self task w r w' :
  execute_task self task w = (r, w') ->
  exists posts new,
    store w' = store w ++ new /\ sent w' = sent w ++ posts /\
    match r with
    | Ok res =>
        exists lt d rq,
          task = VRef lt /\ store w !! lt = Some (ODict d) /\
          res = VRef (length (store w)) /\
          new = [ODict (dict_set d "result" (VStr "Ok"))] /\
          posts = [rq] /\ submission self rq
    | Raise e =>
        new = [] /\
        (posts = [] \/
         exists rq, posts = [rq] /\ submission self rq /\ after_post e)
    end.
Proof.
  unfold TaskExecutor.execute_task.
  unfold bind at 1. unfold reading at 1.
  destruct (val_getitem (store w) task "target") as [name|e0] eqn:Et;
    [|intros [= <- <-]; exists [], []; rewrite !app_nil_r; auto].
  destruct (val_getitem_dict _ _ _ _ Et) as (lt & d & -> & Hd).
  unfold bind at 1. unfold reading at 1.
  destruct (val_in (store w) name (object_map self)) as [found|e0] eqn:Ei;
    [|intros [= <- <-]; exists [], []; rewrite !app_nil_r; auto].
  destruct found; cbn [negb].
  2:{ unfold bind, lift, reading, raise.
      destruct (json_keys (object_map self));
        intros [= <- <-]; exists [], []; rewrite !app_nil_r; auto. }
  unfold bind at 1. unfold reading at 1.
  destruct (json_index str_of (store w) (object_map self) name) as [target|e0];
    [|intros [= <- <-]; exists [], []; rewrite !app_nil_r; auto].
  unfold bind at 1. unfold reading at 1.
  destruct (val_getitem (store w) (VRef lt) "skill") as [skill|e0];
    [|intros [= <- <-]; exists [], []; rewrite !app_nil_r; auto].
  unfold bind at 1.
  assert (Hskill : forall code r1 w1,
    TaskExecutor.post_skill server code self target w = (r1, w1) ->
    match r1 with
    | Ok _ =>
        (let* task_result := py_copy (VRef lt) in
         let* _ := py_setitem task_result "result" (VStr "Ok") in
         ret task_result) w1
    | Raise e => (Raise e, w1)
    end = (r, w') ->
    exists posts new,
    store w' = store w ++ new /\ sent w' = sent w ++ posts /\
    match r with
    | Ok res =>
        exists lt0 d0 rq,
          VRef lt = VRef lt0 /\ store w !! lt0 = Some (ODict d0) /\
          res = VRef (length (store w)) /\
          new = [ODict (dict_set d0 "result" (VStr "Ok"))] /\
          posts = [rq] /\ submission self rq
    | Raise e =>
        new = [] /\
        (posts = [] \/
         exists rq, posts = [rq] /\ submission self rq /\ after_post e)
    end).
  { intros code r1 w1 Hp. apply post_skill_cases in Hp as [Hst Hp].
    destruct r1 as [[]|e1].
    - destruct Hp as (pos & _ & Hsent).
      rewrite (copy_and_mark lt d) by (by rewrite Hst).
      intros [= <- <-]. cbn [store sent]. rewrite Hst, Hsent.
      eexists _, _. split; [reflexivity|]. split; [reflexivity|].
      exists lt, d. eexists. repeat split; eauto. by eexists.
    - intros [= <- <-]. rewrite Hst.
      destruct Hp as [[Hs _]|(pos & _ & Hs & Ha)]; rewrite Hs.
      + exists [], []. rewrite !app_nil_r. auto.
      + eexists _, []. rewrite app_nil_r. repeat split; eauto.
        right. eexists. repeat split; eauto. by eexists. }
  destruct (val_is_str skill "GoToObject");
    [destruct (_go_to_object _ _ _ _ _) eqn:E; eapply Hskill; exact E|].
  destruct (val_is_str skill "PickObject");
    [destruct (_pick_object _ _ _ _ _) eqn:E; eapply Hskill; exact E|].
  destruct (val_is_str skill "PlaceObject");
    [destruct (_place_object _ _ _ _ _) eqn:E; eapply Hskill; exact E|].
  unfold bind, reading, raise.
  intros [= <- <-]; exists [], []; rewrite !app_nil_r; auto.
Qed.

Lemma execute_loop_app self pre rest : forall results w,
  execute_loop self (pre ++ rest) results w =
  match execute_loop self pre results w with
  | (Ok results1, w1) => execute_loop self rest results1 w1
  | (Raise e, w1) => (Raise e, w1)
  end.
Proof.
  induction pre as [|task pre IH]; intros results w; cbn; [done|].
  unfold bind. destruct (execute_task self task w) as [[res|e] w1]; [|done].
  apply IH.
Qed.

Lemma execute_loop_raise self tasks : forall results w e w',
  execute_loop self tasks results w = (Raise e, w') ->
  exists pre task post results1 w1,
    tasks = pre ++ task :: post /\
    execute_loop self pre results w = (Ok results1, w1) /\
    execute_task self task w1 = (Raise e, w').
Proof.
  induction tasks as [|task tasks IH]; intros results w e w'; cbn.
  - discriminate.
  - unfold bind. destruct (execute_task self task w) as [[res|e1] w1] eqn:E.
    + intros H. apply IH in H as (pre & t' & post & r1 & w2 & -> & Hpre & Ht).
      exists (task :: pre), t', post, r1, w2. repeat split; auto.
      cbn. unfold bind. by rewrite E.
    + intros [= <- <-]. exists [], task, tasks, results, w. by repeat split.
Qed.

Lemma execute_loop_ok self tasks : forall results w res w',
  execute_loop self tasks results w = (Ok res, w') ->
  exists posts new,
    store w' = store w ++ new /\ sent w' = sent w ++ posts /\
    length posts = length tasks /\ Forall (submission self) posts /\
    res = results ++ map VRef (seq (length (store w)) (length tasks)) /\
    Forall2 (marked_copy (store w')) tasks new.
Proof.
  induction tasks as [|task tasks IH]; intros results w res w'; cbn.
  - intros [= <- <-]. exists [], []. rewrite !app_nil_r. repeat split; constructor.
  - unfold bind. destruct (execute_task self task w) as [[r1|e1] w1] eqn:E;
      [|discriminate].
    apply execute_task_cases in E
      as (posts1 & new1 & Hst1 & Hs1 & lt & d & rq & -> & Hlt & -> & -> & -> & Hrq).
    intros H. apply IH in H as (posts & new & Hst & Hs & Hlen & Hsub & -> & Hcp).
    exists (rq :: posts), (ODict (dict_set d "result" (VStr "Ok")) :: new).
    rewrite Hst, Hs, Hst1, Hs1, <- !app_assoc. cbn. repeat split; auto.
    + rewrite length_app, Nat.add_1_r. done.
    + constructor.
      * exists lt, d. repeat split; auto. by apply lookup_app_l_Some.
      * by rewrite Hst, Hst1, <- app_assoc in Hcp.
Qed.

Lemma validation_not_after_post e : validation_error fmt str_of e -> ~ after_post e.
Proof.
  intros [(h & name & names & ->)|(h & skill & ->)] [H|[H|[H|H]]];
    discriminate.
Qed.

Lemma val_getitem_error h v k e :
  val_getitem h v k = Raise e ->
  e = TypeError \/ e = SystemError \/ e = KeyError k.
Proof.
  unfold val_getitem. destruct v; try (intros [= <-]; auto).
  destruct (h !! l) as [[|d]|]; try (intros [= <-]; auto).
  destruct (dict_get d k); [discriminate|]. intros [= <-]; auto.
Qed.

Lemma val_iter_error h v e :
  val_iter h v = Raise e -> e = TypeError \/ e = SystemError.
Proof.
  unfold val_iter. destruct v; try (intros [= <-]; auto); try discriminate.
  destruct (h !! l) as [[|d]|]; try discriminate. intros [= <-]; auto.
Qed.

Lemma make_task_sequence_loop_error h groups : forall acc e,
  _make_task_sequence_loop h groups acc = Raise e ->
  e = TypeError \/ e = SystemError \/ e = KeyError "subgoal" \/
  e = KeyError "tasks".
Proof.
  induction groups as [|g groups IH]; intros acc e; cbn; [discriminate|].
  unfold rbind.
  destruct (val_getitem h g "subgoal") eqn:E1;
    [|intros [= <-]; apply val_getitem_error in E1; intuition].
  destruct (val_getitem h g "tasks") eqn:E2;
    [|intros [= <-]; apply val_getitem_error in E2; intuition].
  destruct (val_iter h a0) eqn:E3;
    [|intros [= <-]; apply val_iter_error in E3; intuition].
  apply IH.
Qed.

Lemma make_task_sequence_error h v e :
  _make_task_sequence h v = Raise e -> ~ validation_error fmt str_of e.
Proof.
  unfold _make_task_sequence, rbind. intros H Hv.
  assert (He : e = TypeError \/ e = SystemError \/ e = KeyError "subgoal" \/
               e = KeyError "tasks").
  { destruct (val_iter h v) eqn:E.
    - by apply make_task_sequence_loop_error in H.
    - inversion H; subst. apply val_iter_error in E. intuition. }
  destruct Hv as [(h' & name & names & ->)|(h' & skill & ->)];
    destruct He as [He|[He|[He|He]]]; discriminate.
Qed.

Lemma make_task_sequence_loop_concat h groups : forall tss acc,
  Forall2 (group_tasks h) groups tss ->
  _make_task_sequence_loop h groups acc = Ok (acc ++ concat tss).
Proof.
  induction groups as [|g groups IH]; intros tss acc H; inversion H; subst; cbn.
  - by rewrite app_nil_r.
  - destruct H2 as [[sg Hsg] (tasks & Ht & Hi)].
    rewrite Hsg, Ht. cbn. rewrite Hi. cbn.
    rewrite (IH _ _ H4). by rewrite app_assoc.
Qed.

Lemma val_getitem_grows h new v k x :
  val_getitem h v k = Ok x -> val_getitem (h ++ new) v k = Ok x.
Proof.
  unfold val_getitem. destruct v; try discriminate.
  destruct (h !! l) as [o|] eqn:E; [|discriminate].
  by rewrite (lookup_app_l_Some _ _ _ _ E).
Qed.

Lemma execute_task_unknown_object self m task w t :
  object_map self = JDict m ->
  val_getitem (store w) task "target" = Ok (VStr t) ->
  dict_mem m t = false ->
  execute_task self task w =
    (Raise (KeyError (error_msg fmt str_of (store w) (VStr t) (dict_keys m))), w).
Proof.
  intros Hm Ht Hmem. unfold TaskExecutor.execute_task, bind, reading, lift, raise.
  rewrite Ht, Hm. cbn. by rewrite Hmem.
Qed.

(** C2 (amended).  When the snapshot is a mapping, the tasks before some task
    all complete, and that task names a target absent from the snapshot,
    [execute] raises the unknown-object [KeyError], whose message is built
    from the target and the snapshot's names in order, and returns no
    result list; the world is the one the completed tasks left. *)
Theorem unknown_target_after_completed_prefix
    self m task_outputs w pre task post t results1 w1 :
  object_map self = JDict m ->
  _make_task_sequence (store w) task_outputs = Ok (pre ++ task :: post) ->
  execute_loop self pre [] w = (Ok results1, w1) ->
  val_getitem (store w) task "target" = Ok (VStr t) ->
  dict_mem m t = false ->
  execute self task_outputs w =
    (Raise (KeyError (error_msg fmt str_of (store w1) (VStr t) (dict_keys m))),
     w1).
Proof.
  intros Hm Hseq Hpre Ht Hmem.
  unfold TaskExecutor.execute, bind, reading. rewrite Hseq.
  rewrite execute_loop_app, Hpre. cbn. unfold bind.
  apply execute_loop_ok in Hpre as (posts & new & Hst & _).
  rewrite (execute_task_unknown_object self m task w1 t); auto.
  rewrite Hst. by apply val_getitem_grows.
Qed.

(** C3 (amended).  Whenever [execute] raises an unknown-object or an
    unsupported-skill error, the offending task is some task of the
    sequence, every task before it has completed, and the requests of the
    call are exactly one submission for each of those earlier tasks: none
    was made for the offending task or for any task after it. *)
Theorem validation_error_submissions self task_outputs w e w' :
  execute self task_outputs w = (Raise e, w') ->
  validation_error fmt str_of e ->
  exists pre task post posts results1 w1,
    _make_task_sequence (store w) task_outputs = Ok (pre ++ task :: post) /\
    execute_loop self pre [] w = (Ok results1, w1) /\
    execute_task self task w1 = (Raise e, w') /\
    sent w1 = sent w ++ posts /\
    sent w' = sent w1 /\
    length posts = length pre /\
    Forall (submission self) posts.
Proof.
  unfold TaskExecutor.execute, bind, reading. intros H Hv.
  destruct (_make_task_sequence (store w) task_outputs) as [tasks|e0] eqn:Eseq.
  - apply execute_loop_raise in H
      as (pre & task & post & r1 & w1 & -> & Hpre & Htask).
    pose proof Hpre as Hpre'. pose proof Htask as Htask'.
    apply execute_loop_ok in Hpre as (posts & new & _ & Hs & Hlen & Hsub & _).
    apply execute_task_cases in Htask as (posts1 & new1 & _ & Hs1 & _ & Hp).
    exists pre, task, post, posts, r1, w1. repeat split; auto.
    destruct Hp as [->|(rq & _ & _ & Ha)].
    + by rewrite Hs1, app_nil_r.
    + by apply validation_not_after_post in Ha.
  - inversion H; subst. by apply make_task_sequence_error in Eseq.
Qed.

(** C6.  Any error raised while the tasks run ends the call at the failing
    task: the sequence splits around it, one marked copy exists for each
    task before it and none for it or for a later one, each earlier task
    was submitted once and the failing task at most once (not at all when
    the error is an unknown object or an unsupported skill), and whatever
    tasks follow the failing one have no influence on the outcome. *)
Theorem failure_aborts_remaining_tasks self task_outputs w tasks e w' :
  _make_task_sequence (store w) task_outputs = Ok tasks ->
  execute self task_outputs w = (Raise e, w') ->
  exists pre task post posts new,
    tasks = pre ++ task :: post /\
    store w' = store w ++ new /\ length new = length pre /\
    sent w' = sent w ++ posts /\ Forall (submission self) posts /\
    length pre <= length posts <= S (length pre) /\
    (validation_error fmt str_of e -> length posts = length pre) /\
    (forall post' task_outputs',
        _make_task_sequence (store w) task_outputs'
          = Ok (pre ++ task :: post') ->
        execute self task_outputs' w = (Raise e, w')).
Proof.
  intros Hseq. unfold TaskExecutor.execute at 1. unfold bind, reading.
  rewrite Hseq. intros H.
  apply execute_loop_raise in H
    as (pre & task & post & r1 & w1 & -> & Hpre & Htask).
  pose proof Hpre as Hpre'. pose proof Htask as Htask'.
  apply execute_loop_ok in Hpre
    as (posts & new & Hst & Hs & Hlen & Hsub & _ & Hcp).
  apply execute_task_cases in Htask
    as (posts1 & new1 & Hst1 & Hs1 & -> & Hp).
  exists pre, task, post, (posts ++ posts1), new.
  rewrite Hst1, Hs1, Hst, Hs, app_nil_r, <- app_assoc, length_app.
  repeat split; auto.
  - symmetry. eapply Forall2_length, Hcp.
  - apply Forall_app. split; [done|].
    destruct Hp as [->|(rq & -> & Hrq & _)]; repeat constructor; done.
  - lia.
  - destruct Hp as [->|(rq & -> & _)]; cbn; lia.
  - intros Hv. destruct Hp as [->|(rq & _ & _ & Ha)]; [cbn; lia|].
    by apply validation_not_after_post in Ha.
  - intros post' task_outputs' Hseq'.
    unfold TaskExecutor.execute, bind, reading. rewrite Hseq'.
    rewrite execute_loop_app, Hpre'. cbn. unfold bind. by rewrite Htask'.
Qed.

Lemma copies_are_fresh (h new : heap) (tasks : list val) :
  Forall2 (marked_copy (h ++ new)) tasks new ->
  Forall2 (fresh_copy h (h ++ new)) tasks
          (map VRef (seq (length h) (length tasks))).
Proof.
  intros H. apply Forall2_same_length_lookup_2.
  - by rewrite length_map, length_seq.
  - intros i task res Ht Hr.
    apply list_lookup_fmap_Some in Hr as (l & -> & El).
    apply lookup_seq in El as [-> Hi].
    destruct (Forall2_lookup_l _ _ _ _ _ H Ht) as (o & Ho & Hm).
    exists (length h + i), o. repeat split; auto; [lia|].
    rewrite lookup_app_r by lia. by replace (length h + i - length h) with i by lia.
Qed.

(** C10.  [execute] leaves every object that existed before the call as it
    was, whether it returns or raises; and the list it returns holds, in
    task order, pairwise distinct references to objects that did not exist
    before, each the copy of its task's dict with [result] set to
    ["Ok"]. *)
Theorem execute_preserves_input self task_outputs w r w' :
  execute self task_outputs w = (r, w') ->
  (forall l o, store w !! l = Some o -> store w' !! l = Some o) /\
  (forall results, r = Ok results ->
     exists tasks,
       _make_task_sequence (store w) task_outputs = Ok tasks /\
       Forall2 (fresh_copy (store w) (store w')) tasks results /\
       NoDup results).
Proof.
  unfold TaskExecutor.execute, bind, reading.
  destruct (_make_task_sequence (store w) task_outputs) as [tasks|e0];
    [|cbn; intros [= <- <-]; split; [done|intros ? [=]]].
  destruct r as [results|e]; intros H.
  - apply execute_loop_ok in H as (posts & new & Hst & _ & _ & _ & -> & Hcp).
    rewrite Hst in *. split.
    + intros l o. apply lookup_app_l_Some.
    + intros ? [= <-]. exists tasks. repeat split; auto.
      * by apply copies_are_fresh.
      * cbn. apply NoDup_fmap_2; [by intros ?? [=]|apply NoDup_seq].
  - split; [|intros ? [=]].
    apply execute_loop_raise in H
      as (pre & task & post & r1 & w1 & -> & Hpre & Htask).
    apply execute_loop_ok in Hpre as (posts & new & Hst & _).
    apply execute_task_cases in Htask as (posts1 & new1 & Hst1 & _ & -> & _).
    rewrite Hst1, Hst, app_nil_r. intros l o. apply lookup_app_l_Some.
Qed.

(** C9.  When the [/env] answer is an object without an [objects] member,
    construction succeeds with the empty list as object map; then every
    call of [execute] whose task sequence is not empty raises, with no
    request made and nothing stored, and when the first task has a
    [target] the error is the [AttributeError] of [list.keys], not the
    unknown-object [KeyError]. *)
Theorem missing_objects_breaks_execute url body w0 :
  server (sent w0) (GET (url ++ "/env")) = Replied (Some (JDict body)) ->
  dict_get body "objects" = None ->
  exists self w1,
    __init__ server url w0 = (Ok self, w1) /\
    object_map self = JList [] /\
    forall task_outputs w task rest,
      _make_task_sequence (store w) task_outputs = Ok (task :: rest) ->
      exists e,
        execute self task_outputs w = (Raise e, w) /\
        (forall name, val_getitem (store w) task "target" = Ok name ->
                      e = AttributeError).
Proof.
  intros Hsrv Hobj.
  exists (Make (JList []) url), (World (store w0) (sent w0 ++ [GET (url ++ "/env")])).
  split; [|split; [done|]].
  - unfold __init__, bind, requests_call, lift, ret. rewrite Hsrv. cbn.
    by rewrite Hobj.
  - intros task_outputs w task rest Hseq.
    unfold TaskExecutor.execute, bind, reading. rewrite Hseq. cbn.
    unfold bind. unfold TaskExecutor.execute_task, bind, reading, lift, raise. cbn.
    destruct (val_getitem (store w) task "target") as [name|e] eqn:Et.
    + exists AttributeError. split; [done|]. done.
    + exists e. split; [done|]. discriminate.
Qed.

(** C5 (amended).  For task groups that each carry a [subgoal] and an
    iterable [tasks], [_make_task_sequence] returns the concatenation of
    the groups' tasks, in input order. *)
Theorem make_task_sequence_concat h task_outputs groups tss :
  val_iter h task_outputs = Ok groups ->
  Forall2 (group_tasks h) groups tss ->
  _make_task_sequence h task_outputs = Ok (concat tss).
Proof.
  intros Hi Hg. unfold _make_task_sequence. rewrite Hi. cbn.
  by rewrite (make_task_sequence_loop_concat _ _ _ [] Hg).
Qed.

(** C4 (amended).  Each skill method derives its command from the target's
    position alone, and itself posts the envelope around that command to
    [/send_action]: one request, made by the method. *)
Theorem skill_methods_submit self target pos w :
  json_getitem target "pos" = Ok pos ->
  sent (snd (_go_to_object fmt server self target w)) =
    sent w ++ [POST (url self ++ "/send_action") (run_code (go_to_code fmt pos))] /\
  sent (snd (_pick_object fmt server self target w)) =
    sent w ++ [POST (url self ++ "/send_action") (run_code (pick_code fmt pos))] /\
  sent (snd (_place_object fmt server self target w)) =
    sent w ++ [POST (url self ++ "/send_action") (run_code (place_code fmt pos))].
Proof.
  intros Hpos.
  assert (H : forall code,
    sent (snd (TaskExecutor.post_skill server code self target w)) =
    sent w ++ [POST (url self ++ "/send_action") (run_code (code pos))]).
  { intros code.
    destruct (TaskExecutor.post_skill server code self target w) as [r w'] eqn:E.
    apply post_skill_cases in E as [_ E]. cbn.
    destruct r as [[]|e].
    - destruct E as (pos' & Hp & ->). congruence.
    - destruct E as [[_ Hp]|(pos' & Hp & -> & _)]; congruence. }
  repeat split; apply H.
Qed.
End ExecutorFacts.

(** ** The executor on the demo plans *)

Lemma unknown_target_after_completed_prefix_witness :
  object_map Demo.self = JDict [("table", Demo.table)] /\
  _make_task_sequence (store Demo.go_then_pick) (VRef 4)
    = Ok ([VRef 0] ++ VRef 1 :: []) /\
  execute_loop Demo.fmt Demo.str_of Demo.server Demo.self [VRef 0] []
    Demo.go_then_pick = (Ok [VRef 5], Demo.after_go) /\
  val_getitem (store Demo.go_then_pick) (VRef 1) "target"
    = Ok (VStr "blue_mug") /\
  dict_mem [("table", Demo.table)] "blue_mug" = false /\
  execute Demo.fmt Demo.str_of Demo.server Demo.self (VRef 4)
    Demo.go_then_pick =
  (Raise (KeyError
            "Object 'blue_mug' not found. Available objects: ['table']"),
   Demo.after_go).
Proof.
  do 5 (split; [reflexivity|]).
  exact (unknown_target_after_completed_prefix
           Demo.fmt Demo.str_of Demo.server Demo.self
           [("table", Demo.table)] (VRef 4) Demo.go_then_pick
           [VRef 0] (VRef 1) [] "blue_mug" [VRef 5] Demo.after_go
           eq_refl eq_refl eq_refl eq_refl eq_refl).
Defined.

(** C2, as stated, fails: the second task names a target the snapshot does
    not have, but the first task's unsupported skill ends the call with a
    [ValueError]. *)
Lemma unknown_target_masked_by_earlier_failure :
  _make_task_sequence (store Demo.fly_then_pick) (VRef 4)
    = Ok [VRef 0; VRef 1] /\
  val_getitem (store Demo.fly_then_pick) (VRef 1) "target"
    = Ok (VStr "blue_mug") /\
  val_in (store Demo.fly_then_pick) (VStr "blue_mug")
         (object_map Demo.self) = Ok false /\
  execute Demo.fmt Demo.str_of Demo.server Demo.self (VRef 4)
    Demo.fly_then_pick
    = (Raise (ValueError "Unknown skill: Fly"), Demo.fly_then_pick) /\
  ~ unknown_object_error Demo.fmt Demo.str_of
      (ValueError "Unknown skill: Fly").
Proof.
  repeat split. intros (h & name & names & H). discriminate.
Qed.

Lemma validation_error_submissions_witness :
  execute Demo.fmt Demo.str_of Demo.server Demo.self (VRef 4)
    Demo.go_then_pick =
  (Raise (KeyError
            "Object 'blue_mug' not found. Available objects: ['table']"),
   Demo.after_go) /\
  validation_error Demo.fmt Demo.str_of
    (KeyError "Object 'blue_mug' not found. Available objects: ['table']") /\
  exists pre task post posts results1 w1,
    _make_task_sequence (store Demo.go_then_pick) (VRef 4)
      = Ok (pre ++ task :: post) /\
    execute_loop Demo.fmt Demo.str_of Demo.server Demo.self pre []
      Demo.go_then_pick = (Ok results1, w1) /\
    execute_task Demo.fmt Demo.str_of Demo.server Demo.self task w1 =
      (Raise (KeyError
                "Object 'blue_mug' not found. Available objects: ['table']"),
       Demo.after_go) /\
    sent w1 = sent Demo.go_then_pick ++ posts /\
    sent Demo.after_go = sent w1 /\
    length posts = length pre /\
    Forall (submission Demo.self) posts.
Proof.
  assert (Hv : validation_error Demo.fmt Demo.str_of
    (KeyError "Object 'blue_mug' not found. Available objects: ['table']")).
  { left. exists [], (VStr "blue_mug"), ["table"]. reflexivity. }
  split; [reflexivity|]. split; [exact Hv|].
  exact (validation_error_submissions
           Demo.fmt Demo.str_of Demo.server Demo.self (VRef 4)
           Demo.go_then_pick _ Demo.after_go eq_refl Hv).
Defined.

(** C3, as stated, fails: the call raises the unknown-object error for the
    second task after the first task's command has been posted. *)
Lemma validation_error_after_submission :
  execute Demo.fmt Demo.str_of Demo.server Demo.self (VRef 4)
    Demo.go_then_pick =
  (Raise (KeyError
            "Object 'blue_mug' not found. Available objects: ['table']"),
   Demo.after_go) /\
  unknown_object_error Demo.fmt Demo.str_of
    (KeyError "Object 'blue_mug' not found. Available objects: ['table']") /\
  sent Demo.go_then_pick = [] /\
  sent Demo.after_go =
    [POST "http://127.0.0.1:8800/send_action"
       (run_code (go_to_code Demo.fmt (JList [JInt 1; JInt 2; JInt 0])))].
Proof.
  repeat split. exists [], (VStr "blue_mug"), ["table"]. reflexivity.
Qed.

Lemma skill_methods_submit_witness :
  json_getitem Demo.table "pos" = Ok (JList [JInt 1; JInt 2; JInt 0]) /\
  sent (snd (_go_to_object Demo.fmt Demo.server Demo.self Demo.table
               (World [] []))) =
    [] ++ [POST (url Demo.self ++ "/send_action")
             (run_code (go_to_code Demo.fmt (JList [JInt 1; JInt 2; JInt 0])))] /\
  sent (snd (_pick_object Demo.fmt Demo.server Demo.self Demo.table
               (World [] []))) =
    [] ++ [POST (url Demo.self ++ "/send_action")
             (run_code (pick_code Demo.fmt (JList [JInt 1; JInt 2; JInt 0])))] /\
  sent (snd (_place_object Demo.fmt Demo.server Demo.self Demo.table
               (World [] []))) =
    [] ++ [POST (url Demo.self ++ "/send_action")
             (run_code (place_code Demo.fmt (JList [JInt 1; JInt 2; JInt 0])))].
Proof.
  split; [reflexivity|].
  exact (skill_methods_submit Demo.fmt Demo.server Demo.self Demo.table
           (JList [JInt 1; JInt 2; JInt 0]) (World [] []) eq_refl).
Defined.

(** C4, as stated, fails: [_pick_object] itself makes the network call. *)
Lemma pick_object_submits :
  sent (snd (_pick_object Demo.fmt Demo.server Demo.self Demo.table
               (World [] []))) =
    [POST "http://127.0.0.1:8800/send_action"
       (run_code (String.append nl
          (String.append "result = pick_object([1, 2, 0], 0.1, 0.2)" nl)))] /\
  sent (snd (_pick_object Demo.fmt Demo.server Demo.self Demo.table
               (World [] []))) <> sent (World [] []).
Proof.
  split; [reflexivity|discriminate].
Qed.

Lemma make_task_sequence_concat_witness :
  val_iter (Demo.groups true) (VRef 4) = Ok [VRef 2; VRef 3] /\
  Forall2 (group_tasks (Demo.groups true)) [VRef 2; VRef 3]
          [[VStr "A"; VStr "B"]; [VStr "C"]] /\
  _make_task_sequence (Demo.groups true) (VRef 4)
    = Ok (concat [[VStr "A"; VStr "B"]; [VStr "C"]]).
Proof.
  assert (H : Forall2 (group_tasks (Demo.groups true)) [VRef 2; VRef 3]
                      [[VStr "A"; VStr "B"]; [VStr "C"]]).
  { constructor; [|constructor; [|constructor]].
    - split; [by exists (VStr "one")|]. by exists (VRef 0).
    - split; [by exists (VStr "two")|]. by exists (VRef 1). }
  split; [reflexivity|]. split; [exact H|].
  exact (make_task_sequence_concat (Demo.groups true) (VRef 4)
           [VRef 2; VRef 3] [[VStr "A"; VStr "B"]; [VStr "C"]] eq_refl H).
Defined.

(** C5, as stated, fails on its own example: groups that have [tasks] but
    no [subgoal] make [_make_task_sequence] raise. *)
Lemma make_task_sequence_needs_subgoal :
  val_iter (Demo.groups false) (VRef 4) = Ok [VRef 2; VRef 3] /\
  val_getitem (Demo.groups false) (VRef 2) "tasks" = Ok (VRef 0) /\
  val_iter (Demo.groups false) (VRef 0) = Ok [VStr "A"; VStr "B"] /\
  val_getitem (Demo.groups false) (VRef 3) "tasks" = Ok (VRef 1) /\
  val_iter (Demo.groups false) (VRef 1) = Ok [VStr "C"] /\
  _make_task_sequence (Demo.groups false) (VRef 4)
    = Raise (KeyError "subgoal") /\
  _make_task_sequence (Demo.groups false) (VRef 4)
    <> Ok [VStr "A"; VStr "B"; VStr "C"].
Proof.
  repeat split. discriminate.
Qed.

Lemma failure_aborts_remaining_tasks_witness :
  _make_task_sequence (store Demo.go_then_pick) (VRef 4)
    = Ok [VRef 0; VRef 1] /\
  execute Demo.fmt Demo.str_of Demo.server Demo.self (VRef 4)
    Demo.go_then_pick =
  (Raise (KeyError
            "Object 'blue_mug' not found. Available objects: ['table']"),
   Demo.after_go) /\
  exists pre task post posts new,
    [VRef 0; VRef 1] = pre ++ task :: post /\
    store Demo.after_go = store Demo.go_then_pick ++ new /\
    length new = length pre /\
    sent Demo.after_go = sent Demo.go_then_pick ++ posts /\
    Forall (submission Demo.self) posts /\
    length pre <= length posts <= S (length pre) /\
    (validation_error Demo.fmt Demo.str_of
       (KeyError "Object 'blue_mug' not found. Available objects: ['table']")
     -> length posts = length pre) /\
    (forall post' task_outputs',
        _make_task_sequence (store Demo.go_then_pick) task_outputs'
          = Ok (pre ++ task :: post') ->
        execute Demo.fmt Demo.str_of Demo.server Demo.self task_outputs'
          Demo.go_then_pick =
        (Raise (KeyError
                  "Object 'blue_mug' not found. Available objects: ['table']"),
         Demo.after_go)).
Proof.
  split; [reflexivity|]. split; [reflexivity|].
  exact (failure_aborts_remaining_tasks
           Demo.fmt Demo.str_of Demo.server Demo.self (VRef 4)
           Demo.go_then_pick [VRef 0; VRef 1] _ Demo.after_go
           eq_refl eq_refl).
Defined.

Lemma missing_objects_breaks_execute_witness :
  Demo.bare_server (sent (World [] [])) (GET (Demo.url ++ "/env"))
    = Replied (Some (JDict [("status", JStr "ok")])) /\
  dict_get [("status", JStr "ok")] "objects" = None /\
  exists self w1,
    __init__ Demo.bare_server Demo.url (World [] []) = (Ok self, w1) /\
    object_map self = JList [] /\
    forall task_outputs w task rest,
      _make_task_sequence (store w) task_outputs = Ok (task :: rest) ->
      exists e,
        execute Demo.fmt Demo.str_of Demo.bare_server self task_outputs w
          = (Raise e, w) /\
        (forall name, val_getitem (store w) task "target" = Ok name ->
                      e = AttributeError).
Proof.
  split; [reflexivity|]. split; [reflexivity|].
  exact (missing_objects_breaks_execute
           Demo.fmt Demo.str_of Demo.bare_server Demo.url
           [("status", JStr "ok")] (World [] []) eq_refl eq_refl).
Defined.

Lemma execute_preserves_input_witness :
  execute Demo.fmt Demo.str_of Demo.server Demo.self (VRef 4)
    Demo.go_then_place = (Ok [VRef 5; VRef 6], Demo.after_place) /\
  (forall l o, store Demo.go_then_place !! l = Some o ->
               store Demo.after_place !! l = Some o) /\
  (forall results, Ok [VRef 5; VRef 6] = Ok results ->
     exists tasks,
       _make_task_sequence (store Demo.go_then_place) (VRef 4) = Ok tasks /\
       Forall2 (fresh_copy (store Demo.go_then_place)
                           (store Demo.after_place)) tasks results /\
       NoDup results).
Proof.
  split; [reflexivity|].
  exact (execute_preserves_input
           Demo.fmt Demo.str_of Demo.server Demo.self (VRef 4)
           Demo.go_then_place (Ok [VRef 5; VRef 6]) Demo.after_place eq_refl).
Defined.

(** The answer of this repository's own [/send_action] handler has no
    [result] member: against it a skill method posts its command and then
    raises [KeyError], so the peer the executor is written for is one that
    answers with a [result]. *)
Example skill_method_against_send_action :
  _go_to_object Demo.fmt
    (fun _ _ => Replied (Some (Server.content Server.accepted)))
    Demo.self Demo.table (World [] []) =
  (Raise (KeyError "result"),
   World []
     [POST "http://127.0.0.1:8800/send_action"
        (run_code (go_to_code Demo.fmt (JList [JInt 1; JInt 2; JInt 0])))]).
Proof. reflexivity. Qed.

(** * Facts about the server *)

Import Server.

#[local] Arguments in_flight : simpl never.
#[local] Arguments begun : simpl never.
#[local] Arguments taken : simpl never.

Lemma taken_snoc tr ev :
  taken (tr ++ [ev]) = taken tr ++ match ev with Got id => [id] | _ => [] end.
Proof. unfold taken. rewrite omap_app. by destruct ev. Qed.

Lemma begun_snoc tr ev :
  begun (tr ++ [ev]) = begun tr ++ match ev with Begin id _ => [id] | _ => [] end.
Proof. unfold begun. rewrite omap_app. by destruct ev. Qed.

Lemma in_flight_snoc tr ev :
  in_flight (tr ++ [ev]) = in_flight_step (in_flight tr) ev.
Proof. unfold in_flight. by rewrite fold_left_app. Qed.



Lemma inv_main : inv main.
Proof.
  exists 0. cbn. repeat split; try constructor. intros; discriminate.
Qed.

Lemma put_keeps_inv q w out tr item :
  inv (State q w out tr) -> inv (State (put q item) w out tr).
Proof.
  intros (lo & Ht & Hi & Hle & Hs & Hb & Hf & Hc). exists lo. cbn in *.
  repeat split; try done; try lia.
  rewrite map_app, Hi. cbn.
  replace (S (arrivals q) - lo) with (S (arrivals q - lo)) by lia.
  rewrite seq_S. do 2 f_equal. lia.
Qed.

Lemma receive_action_queue body q r q' :
  receive_action body q = Ok (r, q') -> q' = q \/ q' = put q body.
Proof.
  unfold receive_action, rbind. intros H.
  repeat (match type of H with
          | context [match ?x with _ => _ end] => destruct x; try discriminate
          | context [if ?x then _ else _] => destruct x; try discriminate
          end); inversion H; auto.
Qed.

Lemma finish_iteration_items q out :
  items (fst (finish_iteration q out)) = items q /\
  arrivals (fst (finish_iteration q out)) = arrivals q.
Proof.
  unfold finish_iteration, task_done. by destruct (unfinished q).
Qed.

(** Reduce the projections of an explicit state, and nothing else. *)
Ltac project := cbn [trace waiting worker items arrivals].

(** The calls begun stay below a raised mark. *)
Ltac below_next Hb := eapply Forall_impl; [exact Hb|]; cbn; lia.

Lemma poll_keeps_inv s : worker s = Polling -> inv s -> inv (poll s).
Proof.
  destruct s as [[its u n] w out tr]. cbn. intros ->.
  intros (lo & Ht & Hi & Hle & Hs & Hb & Hf & Hc). cbn in *.
  unfold poll. cbn. destruct its as [|[id item] rest].
  { exists lo. repeat split; auto. }
  cbn in Hi. destruct (n - lo) as [|k] eqn:En; [discriminate|].
  cbn in Hi. injection Hi as -> Hrest.
  assert (Hseq : map fst rest = seq (S lo) (n - S lo))
    by (rewrite Hrest; f_equal; lia).
  destruct (decode item) as [[action [code_str|]]|e].
  - exists (S lo). project.
    rewrite !begun_snoc, !taken_snoc, !in_flight_snoc, Hf, Ht, seq_S.
    cbn. rewrite !app_nil_r.
    repeat split; auto; try lia.
    + apply StronglySorted_app_2; auto; [|repeat constructor].
      intros x y Hx Hy. apply list_elem_of_singleton in Hy as ->.
      rewrite Forall_forall in Hb. auto.
    + apply Forall_app; split; [|repeat constructor]. below_next Hb.
    + intros id c [= <- _]. apply elem_of_app. right. constructor.
  - destruct (finish_iteration _ _) as [q' out'] eqn:EF.
    pose proof (finish_iteration_items (Queue rest u n)
                  (out ++ [Separator; ReceivedAction action])) as [H1 H2].
    rewrite EF in H1, H2. cbn in H1, H2.
    exists (S lo). project.
    rewrite begun_snoc, taken_snoc, in_flight_snoc, Hf, Ht, seq_S, H1, H2.
    cbn. rewrite app_nil_r.
    repeat split; auto; try lia; try (intros; discriminate).
    all: below_next Hb.
  - exists (S lo). project.
    rewrite begun_snoc, taken_snoc, in_flight_snoc, Hf, Ht, seq_S.
    cbn. rewrite app_nil_r.
    repeat split; auto; try lia; try (intros; discriminate).
    all: below_next Hb.
Qed.

Lemma finish_keeps_inv s id code_str o :
  worker s = Executing id code_str -> inv s -> inv (finish id o s).
Proof.
  destruct s as [q w out tr]. cbn. intros ->.
  intros (lo & Ht & Hi & Hle & Hs & Hb & Hf & Hc). cbn in *.
  assert (Hfl : in_flight (tr ++ [End id o]) = []).
  { rewrite in_flight_snoc, Hf. cbn. by rewrite Nat.eqb_refl. }
  unfold finish. cbn.
  destruct o as [|tn msg|];
    [ destruct (finish_iteration _ _) as [q' out'] eqn:EF;
      pose proof (finish_iteration_items q (out ++ [CompletedSuccessfully]))
        as [H1 H2]
    | destruct (finish_iteration _ _) as [q' out'] eqn:EF;
      pose proof (finish_iteration_items q (out ++ [ExecutionError tn msg]))
        as [H1 H2]
    | ];
    try (rewrite EF in H1, H2; cbn in H1, H2);
    exists lo; project;
    rewrite begun_snoc, taken_snoc, Hfl, ?H1, ?H2, !app_nil_r;
    repeat split; auto; intros; discriminate.
Qed.

Lemma step_keeps_inv l s s' : inv s -> step l s = Some s' -> inv s'.
Proof.
  intros HI Hstep. destruct l as [body | code | | o]; cbn in Hstep.
  - destruct (receive_action body (waiting s)) as [[r q]|e] eqn:E.
    + inversion Hstep; subst. destruct s as [q0 w out tr]. cbn in *.
      apply receive_action_queue in E as [-> | ->]; auto using put_keeps_inv.
    + by inversion Hstep; subst.
  - inversion Hstep; subst. destruct s. by apply put_keeps_inv.
  - destruct (worker s) eqn:W; try discriminate.
    inversion Hstep; subst. by apply poll_keeps_inv.
  - destruct (worker s) as [|id code_str|] eqn:W; try discriminate.
    inversion Hstep; subst. by eapply finish_keeps_inv.
Qed.

Lemma run_keeps_inv ls : forall s s', inv s -> run ls s = Some s' -> inv s'.
Proof.
  induction ls as [|l ls IH]; cbn; intros s s' HI H.
  - by inversion H; subst.
  - destruct (step l s) as [s1|] eqn:E; [|discriminate].
    eauto using step_keeps_inv.
Qed.

Lemma step_extends_trace l s s' :
  step l s = Some s' -> exists evs, trace s' = trace s ++ evs.
Proof.
  destruct s as [[its u n] w out tr]. destruct l as [body | code | | o]; cbn.
  - destruct (receive_action _ _) as [[r q]|e]; intros [= <-]; exists []; cbn;
      by rewrite app_nil_r.
  - intros [= <-]. exists []. cbn. by rewrite app_nil_r.
  - destruct w; try discriminate. intros [= <-]. unfold poll. cbn.
    destruct its as [|[id item] rest]; [exists []; cbn; by rewrite app_nil_r|].
    destruct (decode item) as [[action [code_str|]]|e].
    + exists [Got id; Begin id code_str]. cbn. by rewrite <- app_assoc.
    + destruct (finish_iteration _ _). by exists [Got id].
    + by exists [Got id].
  - destruct w as [|id c|]; try discriminate. intros [= <-]. unfold finish. cbn.
    destruct o; [destruct (finish_iteration _ _)|destruct (finish_iteration _ _)|];
      by eexists [End id _].
Qed.

Lemma run_extends_trace ls : forall s s',
  run ls s = Some s' -> exists evs, trace s' = trace s ++ evs.
Proof.
  induction ls as [|l ls IH]; cbn; intros s s' H.
  - inversion H; subst. exists []. by rewrite app_nil_r.
  - destruct (step l s) as [s1|] eqn:E; [|discriminate].
    apply step_extends_trace in E as [evs1 E1]. apply IH in H as [evs2 E2].
    exists (evs1 ++ evs2). by rewrite E2, E1, app_assoc.
Qed.

Lemma sorted_lookup_lt (l : list nat) : StronglySorted lt l ->
  forall i j x y, l !! i = Some x -> l !! j = Some y -> x < y -> i < j.
Proof.
  induction 1 as [|a l Hs IH Ha]; intros i j x y Hi Hj Hxy.
  - by rewrite lookup_nil in Hi.
  - rewrite Forall_forall in Ha.
    destruct i as [|i], j as [|j]; cbn in *; simplify_eq; try lia.
    + apply list_elem_of_lookup_2 in Hi. apply Ha in Hi. lia.
    + apply Nat.succ_lt_mono with (n := i) (m := j). eauto.
Qed.

(** C1.  In every state the server can reach, under any interleaving of
    requests with the worker's moves, at most one call of [exec_code] is
    open; envelopes have left the queue in arrival order, none skipped;
    and the calls begun are calls for envelopes that left the queue, begun
    in arrival order: of two envelopes whose code was run, the one that
    arrived first was begun first. *)
Theorem dispatch_serial_in_arrival_order (ls : list label) (s : state) :
  run ls main = Some s ->
  length (in_flight (trace s)) <= 1 /\
  taken (trace s) = seq 0 (length (taken (trace s))) /\
  (forall y, y ∈ begun (trace s) -> y ∈ taken (trace s)) /\
  (forall i j x y,
      begun (trace s) !! i = Some x -> begun (trace s) !! j = Some y ->
      x < y -> i < j).
Proof.
  intros Hrun. apply (run_keeps_inv _ _ _ inv_main) in Hrun.
  destruct Hrun as (lo & Ht & Hi & Hle & Hs & Hb & Hf & Hc).
  repeat split.
  - rewrite Hf. destruct (worker s); cbn; lia.
  - by rewrite Ht, length_seq.
  - intros y Hy. rewrite Ht. rewrite Forall_forall in Hb. apply Hb in Hy.
    apply elem_of_seq. lia.
  - by apply sorted_lookup_lt.
Qed.


Lemma sorted_lt_NoDup (l : list nat) : StronglySorted lt l -> NoDup l.
Proof.
  induction 1 as [|a l Hs IH Ha]; constructor; auto.
  intros Hin. rewrite Forall_forall in Ha. apply Ha in Hin. lia.
Qed.

Lemma begun_once s id :
  inv s -> id ∈ begun (trace s) ->
  (id ∉ map fst (items (waiting s))) /\
  count_occ Nat.eq_dec (begun (trace s)) id = 1.
Proof.
  intros (lo & Ht & Hi & Hle & Hs & Hb & Hf & Hc) Hin. split.
  - rewrite Hi, elem_of_seq. rewrite Forall_forall in Hb. apply Hb in Hin. lia.
  - apply sorted_lt_NoDup, NoDup_ListNoDup in Hs.
    apply (proj1 (NoDup_count_occ' Nat.eq_dec _) Hs).
    by apply list_elem_of_In.
Qed.

(** C7.  When [exec_code] raises an [Exception] for the envelope in hand,
    the worker prints the error and is polling again; the queue holds what
    it held (the envelope is not put back); the next envelope, if its code
    can be run, is taken and begun by the next poll; and in no later state
    is the failed envelope waiting or begun a second time. *)
Theorem execution_error_survived (s : state) (id : nat) (code_str : json)
    (type_name message : string) :
  worker s = Executing id code_str ->
  exists s',
    step (Finish (Raised type_name message)) s = Some s' /\
    worker s' = Polling /\
    items (waiting s') = items (waiting s) /\
    ExecutionError type_name message ∈ printed s' /\
    (forall id' item rest action code',
        items (waiting s') = (id', item) :: rest ->
        decode item = Ok (action, Run code') ->
        exists s'',
          step Poll s' = Some s'' /\
          worker s'' = Executing id' code' /\
          items (waiting s'') = rest /\
          trace s'' = trace s' ++ [Got id'; Begin id' code']) /\
    (forall ls0 ls s'',
        run ls0 main = Some s -> run ls s' = Some s'' ->
        (id ∉ map fst (items (waiting s''))) /\
        count_occ Nat.eq_dec (begun (trace s'')) id = 1).
Proof.
  intros W.
  assert (Hstep : step (Finish (Raised type_name message)) s
                  = Some (finish id (Raised type_name message) s))
    by (cbn; by rewrite W).
  eexists. split; [exact Hstep|].
  split; [|split; [|split; [|split]]].
  - unfold finish. by destruct (finish_iteration _ _).
  - unfold finish.
    pose proof (finish_iteration_items (waiting s)
                  (printed s ++ [ExecutionError type_name message])) as [H1 _].
    by destruct (finish_iteration _ _).
  - unfold finish, finish_iteration.
    destruct (task_done (waiting s)); cbn; rewrite !elem_of_app; left; right;
      constructor.
  - intros id' item rest action code' Hq Hd.
    assert (Hw : worker (finish id (Raised type_name message) s) = Polling)
      by (unfold finish; by destruct (finish_iteration _ _)).
    cbn [step]. rewrite Hw. eexists. split; [reflexivity|].
    unfold poll. rewrite Hq, Hd. cbn. by rewrite <- app_assoc.
  - intros ls0 ls s'' Hs Hs''.
    apply (run_keeps_inv _ _ _ inv_main) in Hs.
    assert (Hid : id ∈ begun (trace s)).
    { destruct Hs as (lo & _ & _ & _ & _ & _ & _ & Hc). eauto. }
    pose proof (step_keeps_inv _ _ _ Hs Hstep) as HI'.
    pose proof (run_keeps_inv _ _ _ HI' Hs'') as HI''.
    apply begun_once; [done|].
    apply run_extends_trace in Hs'' as [evs ->].
    apply step_extends_trace in Hstep as [evs' ->].
    unfold begun. rewrite !omap_app, !elem_of_app. auto.
Qed.

(** C8 (amended).  A submission that is a JSON object, whose [action]
    member (if any) is an object too, is put on the queue and answered 200
    exactly when [action] is present and has both a [type] and a [payload]
    key; otherwise it is answered 400 and the queue is untouched.  The
    value of [type] plays no part: an envelope of another type than
    [run_code] is enqueued like any other, and the worker runs nothing for
    it. *)
Theorem receive_action_checks_keys_only (action : json) (q : queue) :
  (exists entries, action = JDict entries) ->
  (forall inner, json_getitem action "action" = Ok inner ->
                 exists entries, inner = JDict entries) ->
  receive_action action q =
    (if has_envelope_keys action
     then Ok (accepted, put q action)
     else Ok (rejected, q)) /\
  status_code accepted = 200 /\
  status_code rejected = 400 /\
  (forall inner type,
      json_getitem action "action" = Ok inner ->
      json_getitem inner "type" = Ok type ->
      json_is_str "run_code" type = false ->
      decode action = Ok (inner, Ignore)).
Proof.
  intros [d ->] Hinner. split; [|split; [done|split; [done|]]].
  - unfold receive_action, has_envelope_keys.
    cbn [json_contains_str json_getitem rbind] in *. unfold dict_mem.
    destruct (dict_get d "action") as [inner|]; [|reflexivity].
    destruct (Hinner inner eq_refl) as [e ->]. cbn. unfold dict_mem.
    destruct (dict_get e "type"); [|reflexivity]. cbn.
    by destruct (dict_get e "payload").
  - intros inner type Ha Ht Hty. unfold decode. rewrite Ha. cbn.
    rewrite Ht. cbn. by rewrite Hty.
Qed.

(** ** The server on the demo traffic *)

Lemma dispatch_serial_in_arrival_order_witness :
  run Demo.traffic main = Some Demo.served /\
  length (in_flight (trace Demo.served)) <= 1 /\
  taken (trace Demo.served) = seq 0 (length (taken (trace Demo.served))) /\
  (forall y, y ∈ begun (trace Demo.served) -> y ∈ taken (trace Demo.served)) /\
  (forall i j x y,
      begun (trace Demo.served) !! i = Some x ->
      begun (trace Demo.served) !! j = Some y ->
      x < y -> i < j).
Proof.
  split; [reflexivity|].
  exact (dispatch_serial_in_arrival_order Demo.traffic Demo.served eq_refl).
Defined.

Lemma execution_error_survived_witness :
  worker Demo.busy = Executing 0 (JStr "a") /\
  exists s',
    step (Finish (Raised "NameError" "name 'a' is not defined")) Demo.busy
      = Some s' /\
    worker s' = Polling /\
    items (waiting s') = items (waiting Demo.busy) /\
    ExecutionError "NameError" "name 'a' is not defined" ∈ printed s' /\
    (forall id' item rest action code',
        items (waiting s') = (id', item) :: rest ->
        decode item = Ok (action, Run code') ->
        exists s'',
          step Poll s' = Some s'' /\
          worker s'' = Executing id' code' /\
          items (waiting s'') = rest /\
          trace s'' = trace s' ++ [Got id'; Begin id' code']) /\
    (forall ls0 ls s'',
        run ls0 main = Some Demo.busy -> run ls s' = Some s'' ->
        (0 ∉ map fst (items (waiting s''))) /\
        count_occ Nat.eq_dec (begun (trace s'')) 0 = 1).
Proof.
  split; [reflexivity|].
  exact (execution_error_survived Demo.busy 0 (JStr "a")
           "NameError" "name 'a' is not defined" eq_refl).
Defined.

Lemma receive_action_checks_keys_only_witness :
  (exists entries, Demo.envelope "run_code" "a" = JDict entries) /\
  (forall inner,
      json_getitem (Demo.envelope "run_code" "a") "action" = Ok inner ->
      exists entries, inner = JDict entries) /\
  receive_action (Demo.envelope "run_code" "a") (Queue [] 0 0) =
    (if has_envelope_keys (Demo.envelope "run_code" "a")
     then Ok (accepted, put (Queue [] 0 0) (Demo.envelope "run_code" "a"))
     else Ok (rejected, Queue [] 0 0)) /\
  status_code accepted = 200 /\
  status_code rejected = 400 /\
  (forall inner type,
      json_getitem (Demo.envelope "run_code" "a") "action" = Ok inner ->
      json_getitem inner "type" = Ok type ->
      json_is_str "run_code" type = false ->
      decode (Demo.envelope "run_code" "a") = Ok (inner, Ignore)).
Proof.
  assert (H1 : exists entries, Demo.envelope "run_code" "a" = JDict entries)
    by (eexists; reflexivity).
  assert (H2 : forall inner,
      json_getitem (Demo.envelope "run_code" "a") "action" = Ok inner ->
      exists entries, inner = JDict entries)
    by (intros inner [= <-]; eexists; reflexivity).
  split; [exact H1|]. split; [exact H2|].
  exact (receive_action_checks_keys_only
           (Demo.envelope "run_code" "a") (Queue [] 0 0) H1 H2).
Defined.

(** C8, as stated, fails: an envelope whose type is not [run_code] is
    answered 200 and put on the queue. *)
Lemma unknown_type_enqueued :
  json_getitem (JDict [("type", JStr "fly");
                       ("payload", JDict [("code", JStr "b")])]) "type"
    = Ok (JStr "fly") /\
  receive_action (Demo.envelope "fly" "b") (Queue [] 0 0) =
    Ok (JSONResponse 200
          (JDict [("status", JStr "success");
                  ("action_feedback", JStr "good")]),
        Queue [(0, Demo.envelope "fly" "b")] 1 1).
Proof.
  split; reflexivity.
Qed.


(** * Further facts about [TaskExecutor] *)

Section ExecutorFurther.
Variable fmt : json -> string.
Variable str_of : heap -> val -> string.
Variable server : list request -> request -> reply.

#[local] Abbreviation execute_task := (execute_task fmt str_of server).
#[local] Abbreviation execute_loop := (execute_loop fmt str_of server).
#[local] Abbreviation execute := (execute fmt str_of server).

Lemma task_request_grows self m h new task rq :
  task_request fmt self m h task rq ->
  task_request fmt self m (h ++ new) task rq.
Proof.
  intros (name & target & pos & skill & code & Ht & Hm & Hp & Hs & Hc & ->).
  exists name, target, pos, skill, code.
  repeat split; auto using val_getitem_grows.
Qed.

(** A skill method whose request is answered with a [result] returns. *)
Lemma post_skill_answered code self target pos w :
  answers_result server ->
  json_getitem target "pos" = Ok pos ->
  post_skill server code self target w =
    (Ok tt,
     World (store w)
           (sent w ++ [POST (url self ++ "/send_action")
                            (run_code (code pos))])).
Proof.
  intros Hsrv Hpos. unfold post_skill, bind, lift, ret, requests_call.
  rewrite Hpos.
  destruct (Hsrv (sent w) (url self +:+ "/send_action") (run_code (code pos)))
    as (b & r & -> & Hr).
  cbn. by rewrite Hr.
Qed.

Lemma execute_task_ok self m task rq w :
  object_map self = JDict m ->
  answers_result server ->
  task_request fmt self m (store w) task rq ->
  exists o,
    marked_copy (store w) task o /\
    execute_task self task w =
      (Ok (VRef (length (store w))), World (store w ++ [o]) (sent w ++ [rq])).
Proof.
  intros Hm Hsrv (name & target & pos & skill & code & Ht & Hn & Hp & Hs & Hc & ->).
  destruct (val_getitem_dict _ _ _ _ Ht) as (lt & d & -> & Hd).
  exists (ODict (dict_set d "result" (VStr "Ok"))).
  split; [by exists lt, d|].
  unfold TaskExecutor.execute_task.
  unfold bind at 1. unfold reading at 1. rewrite Ht.
  unfold bind at 1. unfold reading at 1. rewrite Hm. cbn [val_in].
  unfold dict_mem. rewrite Hn. cbn [negb].
  unfold bind at 1. unfold reading at 1. cbn [json_index]. rewrite Hn.
  unfold bind at 1. unfold reading at 1. rewrite Hs.
  unfold bind at 1. cbn [val_is_str].
  unfold skill_code in Hc.
  assert (Hrun : forall c, c = code ->
    (let (r, w') := post_skill server c self target w in
     match r with
     | Ok _ =>
         (let* task_result := py_copy (VRef lt) in
          let* _ := py_setitem task_result "result" (VStr "Ok") in
          ret task_result) w'
     | Raise e => (Raise e, w')
     end) =
    (Ok (VRef (length (store w))),
     World (store w ++ [ODict (dict_set d "result" (VStr "Ok"))])
           (sent w ++ [POST (url self ++ "/send_action")
                            (run_code (code pos))]))).
  { intros c ->. rewrite (post_skill_answered code self target pos w Hsrv Hp).
    by rewrite (copy_and_mark lt d). }
  destruct (String.eqb skill "GoToObject");
    [apply Hrun; congruence|].
  destruct (String.eqb skill "PickObject");
    [apply Hrun; congruence|].
  destruct (String.eqb skill "PlaceObject");
    [apply Hrun; congruence|discriminate].
Qed.

Lemma execute_loop_succeeds self m tasks : forall rqs results w,
  object_map self = JDict m ->
  answers_result server ->
  Forall2 (task_request fmt self m (store w)) tasks rqs ->
  exists new,
    Forall2 (marked_copy (store w ++ new)) tasks new /\
    execute_loop self tasks results w =
      (Ok (results ++ map VRef (seq (length (store w)) (length tasks))),
       World (store w ++ new) (sent w ++ rqs)).
Proof.
  induction tasks as [|task tasks IH]; intros rqs results w Hm Hsrv Hreq;
    inversion Hreq as [|? rq ? rqs' Hrq Hrest]; subst.
  - exists []. split; [constructor|]. cbn. rewrite !app_nil_r. by destruct w.
  - destruct (execute_task_ok self m task rq w Hm Hsrv Hrq) as (o & Ho & Hrun).
    destruct (IH rqs' (results ++ [VRef (length (store w))])
                 (World (store w ++ [o]) (sent w ++ [rq])) Hm Hsrv)
      as (new & Hnew & Hloop).
    { cbn. eapply Forall2_impl; [exact Hrest|].
      intros t r. apply task_request_grows. }
    exists (o :: new). cbn in Hnew, Hloop. split.
    + constructor.
      * destruct Ho as (lt & d & -> & Hd & ->). exists lt, d.
        repeat split; auto. by apply lookup_app_l_Some.
      * by rewrite <- app_assoc in Hnew.
    + cbn. unfold bind. rewrite Hrun, Hloop.
      rewrite length_app, Nat.add_1_r, <- !app_assoc. reflexivity.
Qed.

(** X1.  When the snapshot is a mapping, the peer answers every command
    with a [result], and every task names a snapshot entry with a position
    and one of the three skills, [execute] returns one fresh reference per
    task and has sent exactly the tasks' commands, in task order. *)
Theorem execute_submits_in_task_order self m task_outputs w tasks rqs :
  object_map self = JDict m ->
  answers_result server ->
  _make_task_sequence (store w) task_outputs = Ok tasks ->
  Forall2 (task_request fmt self m (store w)) tasks rqs ->
  exists new,
    length new = length tasks /\
    execute self task_outputs w =
      (Ok (map VRef (seq (length (store w)) (length tasks))),
       World (store w ++ new) (sent w ++ rqs)).
Proof.
  intros Hm Hsrv Hseq Hreq.
  destruct (execute_loop_succeeds self m tasks rqs [] w Hm Hsrv Hreq)
    as (new & Hnew & Hloop).
  exists new. split; [symmetry; eapply Forall2_length, Hnew|].
  unfold TaskExecutor.execute, bind, reading. by rewrite Hseq.
Qed.

Lemma dict_get_set_eq {A} (d : list (string * A)) k v :
  dict_get (dict_set d k v) k = Some v.
Proof.
  induction d as [|[k' v'] d IH]; cbn.
  - by rewrite String.eqb_refl.
  - destruct (String.eqb k' k) eqn:E; cbn; by rewrite E.
Qed.

Lemma dict_get_set_ne {A} (d : list (string * A)) k k' v :
  k' <> k -> dict_get (dict_set d k v) k' = dict_get d k'.
Proof.
  intros Hne. induction d as [|[k0 v0] d IH]; cbn.
  - destruct (String.eqb k k') eqn:E; [|done].
    apply String.eqb_eq in E. congruence.
  - destruct (String.eqb k0 k) eqn:E; cbn.
    + apply String.eqb_eq in E as ->.
      destruct (String.eqb k k') eqn:E'; [|done].
      apply String.eqb_eq in E'. congruence.
    + by rewrite IH.
Qed.

Lemma dict_keys_set {A} (d : list (string * A)) k v :
  dict_keys (dict_set d k v) =
    if dict_mem d k then dict_keys d else dict_keys d ++ [k].
Proof.
  unfold dict_mem, dict_keys. induction d as [|[k' v'] d IH]; cbn; [done|].
  destruct (String.eqb k' k) eqn:E; cbn; [done|].
  rewrite IH. by destruct (dict_get d k).
Qed.

(** X2.  Each result [execute] returns reads, key by key, as its task does,
    except that [result] reads ["Ok"] (whatever the task had there); the
    keys keep their order, with [result] added last when the task had
    none; and there are as many results as tasks. *)
Theorem results_read_as_tasks self task_outputs w results w' :
  execute self task_outputs w = (Ok results, w') ->
  exists tasks,
    _make_task_sequence (store w) task_outputs = Ok tasks /\
    length results = length tasks /\
    forall i task res,
      tasks !! i = Some task -> results !! i = Some res ->
      exists lt l d d',
        task = VRef lt /\ res = VRef l /\
        store w' !! lt = Some (ODict d) /\
        store w' !! l = Some (ODict d') /\
        dict_get d' "result" = Some (VStr "Ok") /\
        (forall k, k <> "result" -> dict_get d' k = dict_get d k) /\
        dict_keys d' =
          if dict_mem d "result" then dict_keys d
          else dict_keys d ++ ["result"].
Proof.
  unfold TaskExecutor.execute, bind, reading.
  destruct (_make_task_sequence (store w) task_outputs) as [tasks|e0];
    [|discriminate].
  intros H.
  apply execute_loop_ok in H as (posts & new & Hst & _ & _ & _ & -> & Hcp).
  exists tasks. split; [done|]. rewrite Hst in *.
  apply copies_are_fresh in Hcp. cbn.
  split; [by rewrite length_map, length_seq|].
  intros i task res Ht Hr.
  destruct (Forall2_lookup_lr _ _ _ _ _ _ Hcp Ht Hr)
    as (l & o & -> & _ & Hl & lt & d & -> & Hd & ->).
  exists lt, l, d, (dict_set d "result" (VStr "Ok")).
  repeat split; auto using dict_get_set_eq, dict_get_set_ne, dict_keys_set.
Qed.

Lemma make_task_sequence_loop_stops h pre : forall tss group post e acc,
  Forall2 (group_tasks h) pre tss ->
  group_error h group e ->
  _make_task_sequence_loop h (pre ++ group :: post) acc = Raise e.
Proof.
  induction pre as [|g pre IH]; intros tss group post e acc Hpre Hg;
    inversion Hpre as [|? ts ? tss' Hgt Hrest]; subst; cbn.
  - destruct Hg as [->|[[sg ->] [->|(tasks & -> & Hi)]]]; cbn; try done.
    by rewrite Hi.
  - destruct Hgt as [[sg Hsg] (tasks & Ht & Hi)].
    rewrite Hsg, Ht. cbn. rewrite Hi. cbn. eauto.
Qed.

(** X3.  The groups are checked before any task runs: when some group has
    no [subgoal], no [tasks], or [tasks] that cannot be iterated, [execute]
    raises that group's error and leaves the world as it was, whatever
    tasks the groups before it hold and whatever groups come after. *)
Theorem malformed_group_stops_everything
    self task_outputs w pre tss group post e :
  val_iter (store w) task_outputs = Ok (pre ++ group :: post) ->
  Forall2 (group_tasks (store w)) pre tss ->
  group_error (store w) group e ->
  execute self task_outputs w = (Raise e, w).
Proof.
  intros Hi Hpre Hg.
  unfold TaskExecutor.execute, bind, reading, _make_task_sequence.
  rewrite Hi. cbn.
  by rewrite (make_task_sequence_loop_stops _ _ _ _ _ _ _ Hpre Hg).
Qed.

(** X4.  Against a peer that answers as this repository's [/send_action]
    does, a first task that names a snapshot entry with a position and one
    of the three skills has its command sent, and then [execute] raises
    [KeyError('result')]: nothing is returned and no later task is
    reached. *)
Theorem send_action_reply_lacks_result
    self m task_outputs w task rest rq :
  object_map self = JDict m ->
  answers_as_send_action server ->
  _make_task_sequence (store w) task_outputs = Ok (task :: rest) ->
  task_request fmt self m (store w) task rq ->
  execute self task_outputs w =
    (Raise (KeyError "result"), World (store w) (sent w ++ [rq])).
Proof.
  intros Hm Hsrv Hseq
    (name & target & pos & skill & code & Ht & Hn & Hp & Hs & Hc & ->).
  unfold TaskExecutor.execute, bind, reading. rewrite Hseq. cbn [execute_loop].
  unfold bind. unfold TaskExecutor.execute_task.
  unfold bind at 1. unfold reading at 1. rewrite Ht.
  unfold bind at 1. unfold reading at 1. rewrite Hm. cbn [val_in].
  unfold dict_mem. rewrite Hn. cbn [negb].
  unfold bind at 1. unfold reading at 1. cbn [json_index]. rewrite Hn.
  unfold bind at 1. unfold reading at 1. rewrite Hs.
  unfold bind at 1. cbn [val_is_str].
  assert (Hrun : forall c, c = code ->
    post_skill server c self target w =
      (Raise (KeyError "result"),
       World (store w)
             (sent w ++ [POST (url self ++ "/send_action")
                              (run_code (code pos))]))).
  { intros c ->. unfold post_skill, bind, lift, ret, requests_call.
    rewrite Hp.
    rewrite (Hsrv (sent w) (url self +:+ "/send_action")
                  (run_code (code pos)) accepted (Queue [] 0 0)
                  (put (Queue [] 0 0) (run_code (code pos))) eq_refl).
    reflexivity. }
  unfold skill_code in Hc.
  destruct (String.eqb skill "GoToObject");
    [unfold _go_to_object; rewrite (Hrun (go_to_code fmt)); congruence|].
  destruct (String.eqb skill "PickObject");
    [unfold _pick_object; rewrite (Hrun (pick_code fmt)); congruence|].
  destruct (String.eqb skill "PlaceObject");
    [unfold _place_object; rewrite (Hrun (place_code fmt)); congruence
    |discriminate].
Qed.

(** X5.  Construction makes one [GET] to [/env] and no other request,
    whatever the outcome, and it succeeds exactly when the answer is a
    JSON object; the object map is then that object's [objects] member as
    it came, of whatever type, or the empty list. *)
Theorem init_needs_an_object url w :
  sent (snd (__init__ server url w)) = sent w ++ [GET (url ++ "/env")] /\
  store (snd (__init__ server url w)) = store w /\
  forall self,
    fst (__init__ server url w) = Ok self <->
    exists body,
      server (sent w) (GET (url ++ "/env")) = Replied (Some (JDict body)) /\
      self = Make (match dict_get body "objects" with
                   | Some objects => objects
                   | None => JList []
                   end) url.
Proof.
  unfold __init__, bind, requests_call, lift, ret.
  destruct (server (sent w) (GET (url ++ "/env"))) as [[body|]|]; cbn.
  - destruct body; cbn; (split; [done|split; [done|]]); intros self; split;
      try discriminate; try (intros (bd & Hbd & _); discriminate Hbd).
    + intros [= <-]. eauto.
    + intros (bd & [= <-] & ->). done.
  - split; [done|split; [done|]]. intros self; split; [discriminate|].
    intros (bd & Hbd & _). discriminate Hbd.
  - split; [done|split; [done|]]. intros self; split; [discriminate|].
    intros (bd & Hbd & _). discriminate Hbd.
Qed.

(** X6.  Whatever its outcome, [execute] sends nothing but submissions of
    [run_code] envelopes to its own [/send_action], never more than one
    for each task of the sequence, and none at all when the groups cannot
    be flattened. *)
Theorem execute_sends_only_submissions self task_outputs w r w' :
  execute self task_outputs w = (r, w') ->
  exists posts,
    sent w' = sent w ++ posts /\
    Forall (submission self) posts /\
    match _make_task_sequence (store w) task_outputs with
    | Ok tasks => length posts <= length tasks
    | Raise _ => posts = []
    end.
Proof.
  unfold TaskExecutor.execute, bind, reading.
  destruct (_make_task_sequence (store w) task_outputs) as [tasks|e0].
  - destruct r as [results|e]; intros H.
    + apply execute_loop_ok in H as (posts & new & _ & Hs & Hlen & Hsub & _).
      exists posts. repeat split; auto. lia.
    + apply execute_loop_raise in H
        as (pre & task & post & r1 & w1 & -> & Hpre & Htask).
      apply execute_loop_ok in Hpre
        as (posts & new & _ & Hs & Hlen & Hsub & _).
      apply execute_task_cases in Htask
        as (posts1 & new1 & _ & Hs1 & _ & Hp).
      exists (posts ++ posts1). rewrite Hs1, Hs, <- app_assoc.
      rewrite !length_app. cbn.
      destruct Hp as [->|(rq & -> & Hrq & _)].
      * rewrite app_nil_r. repeat split; auto. cbn. lia.
      * repeat split; auto; [|cbn; lia].
        apply Forall_app. split; [done|]. by repeat constructor.
  - intros [= <- <-]. exists []. by rewrite app_nil_r.
Qed.

Lemma py_eq_str h name j : py_eq h (VStr name) j = json_is_str name j.
Proof.
  destruct j; try reflexivity. cbn. apply String.eqb_sym.
Qed.

Lemma string_in_list h name js :
  existsb (py_eq h (VStr name)) js = existsb (json_is_str name) js.
Proof.
  induction js as [|j js IH]; cbn [existsb]; [done|].
  by rewrite py_eq_str, IH.
Qed.

(** X7.  When the snapshot is a list instead of a mapping, a first task
    with a string target always fails before any request is made: with
    [TypeError] from indexing the list by a string when the target is one
    of the list's items, and with [AttributeError] from [.keys()] when it
    is not. *)
Theorem list_snapshot_fails_first_task
    self js task_outputs w task rest name :
  object_map self = JList js ->
  _make_task_sequence (store w) task_outputs = Ok (task :: rest) ->
  val_getitem (store w) task "target" = Ok (VStr name) ->
  execute self task_outputs w =
    (Raise (if existsb (json_is_str name) js
            then TypeError else AttributeError), w).
Proof.
  intros Hm Hseq Ht.
  unfold TaskExecutor.execute, bind, reading. rewrite Hseq. cbn [execute_loop].
  unfold bind. unfold TaskExecutor.execute_task.
  unfold bind at 1. unfold reading at 1. rewrite Ht.
  unfold bind at 1. unfold reading at 1. rewrite Hm. cbn [val_in].
  rewrite string_in_list.
  destruct (existsb (json_is_str name) js); cbn [negb].
  - unfold bind at 1. unfold reading at 1. reflexivity.
  - unfold bind, lift. reflexivity.
Qed.

End ExecutorFurther.


(** * Further facts about the server *)

(** X8.  The envelope a skill method posts is the one [llm_command] builds
    around a string: [/send_action] accepts it and puts it last in the
    queue, and the worker that finds it at the head of the queue takes it
    and calls [exec_code] on that very string. *)
Theorem posted_envelope_round_trip
    (code : string) (q : queue) (id u n : nat) (rest : list (nat * json))
    (out : list line) (tr : list event) :
  receive_action (run_code code) q = Ok (accepted, put q (run_code code)) /\
  llm_envelope code = run_code code /\
  LlmEndpoint.envelope (JStr code) = run_code code /\
  poll (State (Queue ((id, run_code code) :: rest) u n) Polling out tr) =
    State (Queue rest u n) (Executing id (JStr code))
          (out ++ [Separator;
                   ReceivedAction
                     (JDict [("type", JStr "run_code");
                             ("payload", JDict [("code", JStr code)])])])
          (tr ++ [Got id; Begin id (JStr code)]).
Proof.
  repeat split. unfold poll. cbn. by rewrite <- app_assoc.
Qed.


Lemma json_getitem_error j k e :
  json_getitem j k = Raise e -> e = TypeError \/ e = KeyError k.
Proof.
  unfold json_getitem. destruct j; try (intros [= <-]; auto).
  destruct (dict_get entries k); [discriminate|]. intros [= <-]; auto.
Qed.

Lemma decode_error item e :
  decode item = Raise e ->
  e = TypeError \/ e = AttributeError \/ exists k, e = KeyError k.
Proof.
  unfold decode, rbind.
  destruct (json_getitem item "action") as [action|] eqn:E1;
    [|intros [= <-]; apply json_getitem_error in E1 as [->| ->]; eauto].
  destruct (json_getitem action "type") as [type|] eqn:E2;
    [|intros [= <-]; apply json_getitem_error in E2 as [->| ->]; eauto].
  destruct (json_is_str "run_code" type); [|discriminate].
  destruct (json_getitem action "payload") as [payload|] eqn:E3;
    [|intros [= <-]; apply json_getitem_error in E3 as [->| ->]; eauto].
  destruct payload; cbn; intros [= <-]; auto.
Qed.

Lemma processing_errors_app out more :
  processing_errors (out ++ more) =
    processing_errors out + processing_errors more.
Proof.
  unfold processing_errors. by rewrite List.filter_app, length_app.
Qed.

(** Split a membership in [printed s ++ [lines]] into the old lines and
    each new one. *)
Ltac printed_cases Hin :=
  apply elem_of_app in Hin as [Hin|Hin];
  [|repeat (apply elem_of_cons in Hin as [Hin|Hin]; [try discriminate|]);
    try (by apply elem_of_nil in Hin)].

Lemma put_keeps_count q w out tr item :
  unfinished_accounted (State q w out tr) ->
  unfinished_accounted (State (put q item) w out tr).
Proof.
  intros [Hn He]. split; [|done]. cbn in *. rewrite length_app. cbn. lia.
Qed.

(** Reduce the projections of an explicit state in the count. *)
Ltac project_count :=
  cbn [unfinished items waiting worker printed held length].

Lemma poll_keeps_count s :
  worker s = Polling -> unfinished_accounted s -> unfinished_accounted (poll s).
Proof.
  destruct s as [[its u n] w out tr]. intros W [Hn He].
  cbn [worker] in W. subst w. cbn [unfinished items waiting worker printed held length] in Hn. cbn [printed] in He.
  unfold poll. cbn [items waiting unfinished arrivals trace printed].
  destruct its as [|[id item] rest]; [by split|].
  cbn [unfinished items waiting worker printed held length] in Hn.
  destruct (decode item) as [[action [code_str|]]|e] eqn:Ed.
  - split; project_count.
    + rewrite processing_errors_app. cbn. lia.
    + intros e Hin. repeat printed_cases Hin; auto.
  - unfold finish_iteration, task_done. project_count.
    destruct u as [|u']; [lia|]. split; project_count.
    + rewrite !processing_errors_app. cbn. lia.
    + intros e Hin. repeat printed_cases Hin; auto.
  - apply decode_error in Ed.
    destruct (json_getitem item "action") as [action|]; split; project_count.
    + rewrite !processing_errors_app. cbn. lia.
    + intros e' Hin. repeat printed_cases Hin; auto.
      injection Hin as ->. done.
    + rewrite processing_errors_app. cbn. lia.
    + intros e' Hin. repeat printed_cases Hin; auto.
      injection Hin as ->. done.
Qed.

Lemma finish_keeps_count s id code_str o :
  worker s = Executing id code_str ->
  unfinished_accounted s -> unfinished_accounted (finish id o s).
Proof.
  destruct s as [[its u n] w out tr]. intros W [Hn He].
  cbn [worker] in W. subst w. cbn [unfinished items waiting worker printed held length] in Hn. cbn [printed] in He.
  unfold finish, finish_iteration, task_done. project_count.
  destruct u as [|u']; [lia|].
  destruct o as [|tn msg|]; split; project_count; try done; try lia.
  - rewrite !processing_errors_app. cbn. lia.
  - intros e Hin. repeat printed_cases Hin; auto.
  - rewrite !processing_errors_app. cbn. lia.
  - intros e Hin. repeat printed_cases Hin; auto.
Qed.

Lemma step_keeps_count l s s' :
  unfinished_accounted s -> step l s = Some s' -> unfinished_accounted s'.
Proof.
  intros HI Hstep. destruct l as [body | code | | o]; cbn in Hstep.
  - destruct (receive_action body (waiting s)) as [[r q]|e] eqn:E.
    + inversion Hstep; subst. destruct s as [q0 w out tr]. cbn in *.
      apply receive_action_queue in E as [-> | ->]; auto using put_keeps_count.
    + by inversion Hstep; subst.
  - inversion Hstep; subst. destruct s. by apply put_keeps_count.
  - destruct (worker s) eqn:W; try discriminate.
    inversion Hstep; subst. by apply poll_keeps_count.
  - destruct (worker s) as [|id code_str|] eqn:W; try discriminate.
    inversion Hstep; subst. by eapply finish_keeps_count.
Qed.

Lemma run_keeps_count ls : forall s s',
  unfinished_accounted s -> run ls s = Some s' -> unfinished_accounted s'.
Proof.
  induction ls as [|l ls IH]; cbn; intros s s' HI H.
  - by inversion H; subst.
  - destruct (step l s) as [s1|] eqn:E; [|discriminate].
    eauto using step_keeps_count.
Qed.

(** X10.  In every state the server can reach, the queue's count of
    unfinished tasks is the number of envelopes waiting, plus the one the
    worker holds, plus one for every envelope whose turn ended in the outer
    handler; those turns ended there on a [KeyError], [TypeError] or
    [AttributeError] of decoding, so [task_done()] has never been called
    too often, and the call that closes a turn of [exec_code] succeeds.
    A turn that ends in the outer handler, or a worker that stops, leaves
    the count raised for good. *)
Theorem unfinished_count_is_accounted (ls : list label) (s : state) :
  run ls main = Some s ->
  unfinished (waiting s) =
    length (items (waiting s)) + held (worker s)
    + processing_errors (printed s) /\
  (forall e, ErrorProcessingAction e ∈ printed s ->
             e = TypeError \/ e = AttributeError \/ exists k, e = KeyError k) /\
  (forall id code_str, worker s = Executing id code_str ->
     exists q', task_done (waiting s) = Ok q').
Proof.
  intros Hrun.
  assert (H0 : unfinished_accounted main).
  { split; [done|]. intros e Hin. by apply elem_of_nil in Hin. }
  destruct (run_keeps_count _ _ _ H0 Hrun) as [Hn He].
  split; [done|]. split; [done|].
  intros id code_str W. rewrite W in Hn. cbn in Hn.
  unfold task_done. destruct (unfinished (waiting s)); [lia|]. eauto.
Qed.

(** X11.  No envelope is lost or doubled: in every state the server can
    reach, the arrival numbers of the envelopes the worker has taken,
    followed by those of the envelopes still waiting, are exactly
    [0, 1, ...] up to the number of envelopes put on the queue. *)
Theorem no_envelope_lost (ls : list label) (s : state) :
  run ls main = Some s ->
  taken (trace s) ++ map fst (items (waiting s))
    = seq 0 (arrivals (waiting s)).
Proof.
  intros Hrun. apply (run_keeps_inv _ _ _ inv_main) in Hrun.
  destruct Hrun as (lo & Ht & Hi & Hle & _).
  rewrite Ht, Hi, <- seq_app. f_equal. lia.
Qed.

Lemma stopped_stays ls : forall s s',
  worker s = Stopped -> run ls s = Some s' ->
  worker s' = Stopped /\ trace s' = trace s /\ printed s' = printed s /\
  exists more, items (waiting s') = items (waiting s) ++ more.
Proof.
  induction ls as [|l ls IH]; cbn; intros s s' W H.
  - inversion H; subst. repeat split; auto. exists []. by rewrite app_nil_r.
  - destruct (step l s) as [s1|] eqn:E; [|discriminate].
    assert (H1 : worker s1 = Stopped /\ trace s1 = trace s /\
                 printed s1 = printed s /\
                 exists more, items (waiting s1) = items (waiting s) ++ more).
    { destruct l as [body | code | | o]; cbn in E.
      - destruct (receive_action body (waiting s)) as [[r q]|e] eqn:Er.
        + inversion E; subst. cbn. repeat split; auto.
          apply receive_action_queue in Er as [-> | ->].
          * exists []. by rewrite app_nil_r.
          * by eexists.
        + inversion E; subst. repeat split; auto.
          exists []. by rewrite app_nil_r.
      - inversion E; subst. cbn. repeat split; auto. by eexists.
      - by rewrite W in E.
      - by rewrite W in E. }
    destruct H1 as (W1 & T1 & P1 & more1 & I1).
    destruct (IH _ _ W1 H) as (W' & T' & P' & more & I').
    repeat split; try congruence.
    exists (more1 ++ more). by rewrite I', I1, app_assoc.
Qed.

(** X12.  When [exec_code] raises something that is not an [Exception],
    the worker is gone for good: in every later state nothing more has
    been taken, begun or printed, while the endpoints go on accepting, so
    the queue only grows. *)
Theorem worker_stopped_for_good (s : state) (id : nat) (code_str : json) :
  worker s = Executing id code_str ->
  exists s1,
    step (Finish Aborted) s = Some s1 /\
    forall ls s',
      run ls s1 = Some s' ->
      worker s' = Stopped /\
      trace s' = trace s ++ [End id Aborted] /\
      printed s' = printed s /\
      exists more, items (waiting s') = items (waiting s) ++ more.
Proof.
  intros W. exists (finish id Aborted s). split; [cbn; by rewrite W|].
  intros ls s' Hrun.
  by apply (stopped_stays ls (finish id Aborted s) s') in Hrun.
Qed.

Section LlmFacts.
Variable generate_code : json -> LlmEndpoint.generation.
Variable str_exn : exn -> string.
Variable format_exc : exn -> string.

#[local] Abbreviation llm_command :=
  (LlmEndpoint.llm_command generate_code str_exn format_exc).


(** X14.  A request object is answered 400 exactly when it has no
    [command] or a [command] that Python counts as false; the agent is
    not consulted, and nothing is put on the queue. *)
Theorem llm_command_needs_a_command
    (d : list (string * json)) (q : queue) :
  (status_code (fst (llm_command (JDict d) q)) = 400 <->
   LlmEndpoint.truthy (match dict_get d "command" with
                       | Some user_command => user_command
                       | None => JStr ""
                       end) = false) /\
  (status_code (fst (llm_command (JDict d) q)) = 400 ->
   llm_command (JDict d) q = (LlmEndpoint.no_command, q)).
Proof.
  unfold LlmEndpoint.llm_command. cbn [json_get].
  destruct (LlmEndpoint.truthy _) eqn:Et; cbn [negb]; [|by split].
  assert (Hno : forall r : response * queue,
    status_code (fst r) <> 400 ->
    (status_code (fst r) = 400 <-> true = false) /\
    (status_code (fst r) = 400 -> r = (LlmEndpoint.no_command, q))).
  { intros r Hr. split; [split|]; intros H; [by apply Hr in H|done|].
    by apply Hr in H. }
  apply Hno.
  repeat match goal with
         | |- context [match ?x with _ => _ end] => destruct x
         end;
    vm_compute; discriminate.
Qed.

End LlmFacts.


(** ** The further facts on the examples *)

Lemma demo_server_answers_result : answers_result Demo.server.
Proof.
  intros hist url body. exists (JDict [("result", JNull)]), JNull.
  split; reflexivity.
Defined.

Lemma demo_plan_requests :
  Forall2 (task_request Demo.fmt Demo.self [("table", Demo.table)]
                        (store Demo.go_then_place))
    [VRef 0; VRef 1]
    [POST "http://127.0.0.1:8800/send_action"
       (run_code (go_to_code Demo.fmt (JList [JInt 1; JInt 2; JInt 0])));
     POST "http://127.0.0.1:8800/send_action"
       (run_code (place_code Demo.fmt (JList [JInt 1; JInt 2; JInt 0])))].
Proof.
  constructor; [|constructor; [|constructor]].
  - exists "table", Demo.table, (JList [JInt 1; JInt 2; JInt 0]),
      "GoToObject", (go_to_code Demo.fmt).
    repeat split.
  - exists "table", Demo.table, (JList [JInt 1; JInt 2; JInt 0]),
      "PlaceObject", (place_code Demo.fmt).
    repeat split.
Defined.

Lemma execute_submits_in_task_order_witness :
  answers_result Demo.server /\
  _make_task_sequence (store Demo.go_then_place) (VRef 4)
    = Ok [VRef 0; VRef 1] /\
  exists new,
    length new = length [VRef 0; VRef 1] /\
    execute Demo.fmt Demo.str_of Demo.server Demo.self (VRef 4)
      Demo.go_then_place =
    (Ok (map VRef (seq (length (store Demo.go_then_place))
                       (length [VRef 0; VRef 1]))),
     World (store Demo.go_then_place ++ new)
       (sent Demo.go_then_place ++
        [POST "http://127.0.0.1:8800/send_action"
           (run_code (go_to_code Demo.fmt (JList [JInt 1; JInt 2; JInt 0])));
         POST "http://127.0.0.1:8800/send_action"
           (run_code
              (place_code Demo.fmt (JList [JInt 1; JInt 2; JInt 0])))])).
Proof.
  split; [exact demo_server_answers_result|]. split; [reflexivity|].
  exact (execute_submits_in_task_order
           Demo.fmt Demo.str_of Demo.server Demo.self
           [("table", Demo.table)] (VRef 4) Demo.go_then_place
           [VRef 0; VRef 1] _ eq_refl demo_server_answers_result eq_refl
           demo_plan_requests).
Defined.

Lemma results_read_as_tasks_witness :
  execute Demo.fmt Demo.str_of Demo.server Demo.self (VRef 4)
    Demo.go_then_place = (Ok [VRef 5; VRef 6], Demo.after_place) /\
  exists tasks,
    _make_task_sequence (store Demo.go_then_place) (VRef 4) = Ok tasks /\
    length [VRef 5; VRef 6] = length tasks /\
    forall i task res,
      tasks !! i = Some task -> [VRef 5; VRef 6] !! i = Some res ->
      exists lt l d d',
        task = VRef lt /\ res = VRef l /\
        store Demo.after_place !! lt = Some (ODict d) /\
        store Demo.after_place !! l = Some (ODict d') /\
        dict_get d' "result" = Some (VStr "Ok") /\
        (forall k, k <> "result" -> dict_get d' k = dict_get d k) /\
        dict_keys d' =
          if dict_mem d "result" then dict_keys d
          else dict_keys d ++ ["result"].
Proof.
  split; [reflexivity|].
  exact (results_read_as_tasks
           Demo.fmt Demo.str_of Demo.server Demo.self (VRef 4)
           Demo.go_then_place [VRef 5; VRef 6] Demo.after_place eq_refl).
Defined.

Lemma half_labelled_first_group :
  Forall2 (group_tasks Sample.half_labelled) [VRef 2] [[VRef 5]].
Proof.
  constructor; [|constructor].
  split; [by exists (VStr "one")|]. by exists (VRef 0).
Defined.

Lemma malformed_group_stops_everything_witness :
  val_iter Sample.half_labelled (VRef 4) = Ok ([VRef 2] ++ VRef 3 :: []) /\
  Forall2 (group_tasks Sample.half_labelled) [VRef 2] [[VRef 5]] /\
  group_error Sample.half_labelled (VRef 3) (KeyError "subgoal") /\
  execute Demo.fmt Demo.str_of Demo.server Demo.self (VRef 4)
    (World Sample.half_labelled []) =
  (Raise (KeyError "subgoal"), World Sample.half_labelled []).
Proof.
  assert (Hg : group_error Sample.half_labelled (VRef 3) (KeyError "subgoal"))
    by (left; reflexivity).
  split; [reflexivity|]. split; [exact half_labelled_first_group|].
  split; [exact Hg|].
  exact (malformed_group_stops_everything
           Demo.fmt Demo.str_of Demo.server Demo.self (VRef 4)
           (World Sample.half_labelled []) [VRef 2] [[VRef 5]] (VRef 3) []
           (KeyError "subgoal") eq_refl half_labelled_first_group Hg).
Defined.

Lemma receive_action_response_any_queue body q resp q' q0 :
  receive_action body q = Ok (resp, q') ->
  exists q1, receive_action body q0 = Ok (resp, q1).
Proof.
  unfold receive_action, rbind. intros H.
  repeat (match type of H with
          | context [match ?x with _ => _ end] => destruct x; try discriminate
          | context [if ?x then _ else _] => destruct x; try discriminate
          end); inversion H; eauto.
Qed.

Lemma sample_server_answers_as_send_action :
  answers_as_send_action Sample.send_action_server.
Proof.
  intros hist url body resp q q' H.
  destruct (receive_action_response_any_queue body q resp q' (Queue [] 0 0) H)
    as [q1 H1].
  unfold Sample.send_action_server. rewrite H1. reflexivity.
Defined.

Lemma go_then_pick_first_request :
  task_request Demo.fmt Demo.self [("table", Demo.table)]
    (store Demo.go_then_pick) (VRef 0)
    (POST "http://127.0.0.1:8800/send_action"
       (run_code (go_to_code Demo.fmt (JList [JInt 1; JInt 2; JInt 0])))).
Proof.
  exists "table", Demo.table, (JList [JInt 1; JInt 2; JInt 0]),
    "GoToObject", (go_to_code Demo.fmt).
  repeat split.
Defined.

Lemma send_action_reply_lacks_result_witness :
  answers_as_send_action Sample.send_action_server /\
  _make_task_sequence (store Demo.go_then_pick) (VRef 4)
    = Ok (VRef 0 :: [VRef 1]) /\
  execute Demo.fmt Demo.str_of Sample.send_action_server Demo.self (VRef 4)
    Demo.go_then_pick =
  (Raise (KeyError "result"),
   World (store Demo.go_then_pick)
     (sent Demo.go_then_pick ++
      [POST "http://127.0.0.1:8800/send_action"
         (run_code (go_to_code Demo.fmt (JList [JInt 1; JInt 2; JInt 0])))])).
Proof.
  split; [exact sample_server_answers_as_send_action|].
  split; [reflexivity|].
  exact (send_action_reply_lacks_result
           Demo.fmt Demo.str_of Sample.send_action_server Demo.self
           [("table", Demo.table)] (VRef 4) Demo.go_then_pick
           (VRef 0) [VRef 1] _ eq_refl sample_server_answers_as_send_action
           eq_refl go_then_pick_first_request).
Defined.

Lemma list_snapshot_fails_first_task_witness :
  object_map Sample.listing = JList [JStr "table"; JStr "red_cup"] /\
  _make_task_sequence (store Demo.go_then_pick) (VRef 4)
    = Ok (VRef 0 :: [VRef 1]) /\
  val_getitem (store Demo.go_then_pick) (VRef 0) "target"
    = Ok (VStr "table") /\
  execute Demo.fmt Demo.str_of Demo.server Sample.listing (VRef 4)
    Demo.go_then_pick =
  (Raise (if existsb (json_is_str "table") [JStr "table"; JStr "red_cup"]
          then TypeError else AttributeError),
   Demo.go_then_pick).
Proof.
  do 3 (split; [reflexivity|]).
  exact (list_snapshot_fails_first_task
           Demo.fmt Demo.str_of Demo.server Sample.listing
           [JStr "table"; JStr "red_cup"] (VRef 4) Demo.go_then_pick
           (VRef 0) [VRef 1] "table" eq_refl eq_refl eq_refl).
Defined.

Lemma execute_sends_only_submissions_witness :
  execute Demo.fmt Demo.str_of Demo.server Demo.self (VRef 4)
    Demo.go_then_pick =
  (Raise (KeyError
            "Object 'blue_mug' not found. Available objects: ['table']"),
   Demo.after_go) /\
  exists posts,
    sent Demo.after_go = sent Demo.go_then_pick ++ posts /\
    Forall (submission Demo.self) posts /\
    match _make_task_sequence (store Demo.go_then_pick) (VRef 4) with
    | Ok tasks => length posts <= length tasks
    | Raise _ => posts = []
    end.
Proof.
  split; [reflexivity|].
  exact (execute_sends_only_submissions
           Demo.fmt Demo.str_of Demo.server Demo.self (VRef 4)
           Demo.go_then_pick _ Demo.after_go eq_refl).
Defined.


Lemma unfinished_count_is_accounted_witness :
  run Sample.rough_traffic main = Some Sample.roughly_served /\
  unfinished (waiting Sample.roughly_served) = 1 /\
  unfinished (waiting Sample.roughly_served) =
    length (items (waiting Sample.roughly_served))
    + held (worker Sample.roughly_served)
    + processing_errors (printed Sample.roughly_served) /\
  (forall e, ErrorProcessingAction e ∈ printed Sample.roughly_served ->
             e = TypeError \/ e = AttributeError \/ exists k, e = KeyError k) /\
  (forall id code_str,
     worker Sample.roughly_served = Executing id code_str ->
     exists q', task_done (waiting Sample.roughly_served) = Ok q').
Proof.
  split; [reflexivity|]. split; [reflexivity|].
  exact (unfinished_count_is_accounted
           Sample.rough_traffic Sample.roughly_served eq_refl).
Defined.

Lemma no_envelope_lost_witness :
  run Demo.traffic main = Some Demo.served /\
  taken (trace Demo.served) ++ map fst (items (waiting Demo.served))
    = seq 0 (arrivals (waiting Demo.served)).
Proof.
  split; [reflexivity|].
  exact (no_envelope_lost Demo.traffic Demo.served eq_refl).
Defined.

Lemma worker_stopped_for_good_witness :
  worker Demo.busy = Executing 0 (JStr "a") /\
  step (Finish Aborted) Demo.busy = Some Sample.stopped_busy /\
  exists s1,
    step (Finish Aborted) Demo.busy = Some s1 /\
    forall ls s',
      run ls s1 = Some s' ->
      worker s' = Stopped /\
      trace s' = trace Demo.busy ++ [End 0 Aborted] /\
      printed s' = printed Demo.busy /\
      exists more,
        items (waiting s') = items (waiting Demo.busy) ++ more.
Proof.
  split; [reflexivity|]. split; [reflexivity|].
  exact (worker_stopped_for_good Demo.busy 0 (JStr "a") eq_refl).
Defined.
